(** * The in-memory order plugin of the pizza agent

    A shallow embedding of [OrderPlugin] from
    [src/scripts/pizza_agent_python.py] (lines 175-280) and the properties
    its specification states about it.

    - A Python [str] is a Rocq [string]. [PyStr.lower], [title] and
      [strip] are Python's on ASCII text, the alphabet of the price
      table and of the menu: [str.lower] maps [A-Z] to [a-z] and leaves
      every other byte alone. Where a property has to hold for names
      outside ASCII as well, the operation is taken with [str.lower] (or
      [str.strip]) as a parameter (module [AnyLower], the [_with]
      definitions of [place_order]), and a text that is split into words
      is a list of characters of any alphabet with its own [isspace]
      (module [PyText]).
    - A Python [float] is a primitive binary64 float, so [+] and [*] round
      exactly as CPython's do; [float(int)] is correctly rounded and
      raises [OverflowError] when the result would be infinite.
    - A Python [int] is a [Z].
    - [self.current_orders] is a [gmap] from order ids to orders (it is
      only ever indexed, never iterated); the [items_summary] dictionary
      of [get_order_status] is iterated, so it is an association list in
      insertion order.
    - A method takes the plugin state and gives an [outcome]: the string
      it returned or the exception it raised, with the state it left. *)

From Stdlib Require Import ZArith QArith String Ascii List Floats.
From stdpp Require Import gmap strings list pretty.
Set Warnings "-inexact-float".
Local Open Scope Z_scope.

(** ** Python strings *)

Module PyStr.

Definition nl : string := String "010"%char EmptyString.

(** [c.lower()] for one ASCII character. *)
Definition lower_ascii (c : ascii) : ascii :=
  let n := nat_of_ascii c in
  if ((65 <=? n)%nat && (n <=? 90)%nat)%bool then ascii_of_nat (n + 32) else c.

(** [s.lower()] *)
Fixpoint lower (s : string) : string :=
  match s with
  | EmptyString => EmptyString
  | String c r => String (lower_ascii c) (lower r)
  end.

(** [sep.join(l)] *)
Fixpoint join (sep : string) (l : list string) : string :=
  match l with
  | [] => ""
  | [x] => x
  | x :: r => x +:+ sep +:+ join sep r
  end.

(** [sub in s] *)
Definition contains (sub s : string) : Prop :=
  ∃ pre post, s = pre +:+ sub +:+ post.

End PyStr.

(** ** Python floats *)

Module PyFloat.

(** [float(z)]: the nearest binary64 value, ties to even; [None] stands
    for [OverflowError: int too large to convert to float]. *)
Definition float_of_int (z : Z) : option float :=
  match binary_normalize prec emax z 0 false with
  | S754_infinity _ | S754_nan => None
  | f => Some (SF2Prim f)
  end.

Definition sign_str (s : bool) : string := if s then "-" else "".

(** [num / den] rounded to the nearest integer, ties to even
    ([0 <= num], [0 < den]). *)
Definition round_half_even (num den : Z) : Z :=
  let q := num / den in
  let r := num mod den in
  match 2 * r ?= den with
  | Lt => q
  | Gt => q + 1
  | Eq => if Z.even q then q else q + 1
  end.

Definition two_digits (n : Z) : string := pretty (n / 10) +:+ pretty (n mod 10).

(** [f"{x:.2f}"]: the exact binary value rounded to hundredths, ties to
    even. *)
Definition format_2f (x : float) : string :=
  match Prim2SF x with
  | S754_nan => "nan"
  | S754_infinity s => sign_str s +:+ "inf"
  | S754_zero s => sign_str s +:+ "0.00"
  | S754_finite s m e =>
      let h := if 0 <=? e then Z.pos m * 2 ^ e * 100
               else round_half_even (Z.pos m * 100) (2 ^ (- e)) in
      sign_str s +:+ pretty (h / 100) +:+ "." +:+ two_digits (h mod 100)
  end.

(** *** [repr(x)]: the shortest decimal string that reads back as [x] *)

(** [a * 10^j] and [b * 2^e] brought to a common integer scale. *)
Definition scale (a j b e : Z) : Z * Z :=
  (a * 10 ^ Z.max j 0 * 2 ^ Z.max (- e) 0, b * 2 ^ Z.max e 0 * 10 ^ Z.max (- j) 0).

Definition cmp_dec_bin (a j b e : Z) : comparison :=
  let '(l, r) := scale a j b e in l ?= r.

Fixpoint decpt_up (fuel : nat) (m e k : Z) : Z :=
  match fuel with
  | O => k
  | S fuel' => match cmp_dec_bin 1 k m e with
               | Gt => k
               | _ => decpt_up fuel' m e (k + 1)
               end
  end.

Fixpoint decpt_down (fuel : nat) (m e k : Z) : Z :=
  match fuel with
  | O => k
  | S fuel' => match cmp_dec_bin 1 (k - 1) m e with
               | Gt => decpt_down fuel' m e (k - 1)
               | _ => k
               end
  end.

(** The [k] with [10^(k-1) <= m * 2^e < 10^k]: an estimate from the bit
    length, corrected in both directions. *)
Definition decpt (m e : Z) : Z :=
  let est := (Z.log2 m + e) * 1233 / 4096 in
  decpt_down 700 m e (decpt_up 700 m e est).

(** Is [c * 10^j] between [lo * 2^e2] and [hi * 2^e2]? *)
Definition in_interval (closed : bool) (lo hi e2 c j : Z) : bool :=
  let above := match cmp_dec_bin c j lo e2 with Gt => true | Eq => closed | Lt => false end in
  let below := match cmp_dec_bin c j hi e2 with Lt => true | Eq => closed | Gt => false end in
  above && below.

(** The [n]-digit decimal nearest to [m * 2^e] that still rounds to it,
    if there is one. The rounding interval is kept in quarter units of
    the last place. *)
Definition candidate (m e k n : Z) : option Z :=
  let j := k - n in
  let '(den, num) := scale 1 j m e in
  let c := num / den in
  let lo := if ((m =? 2 ^ 52) && negb (e =? -1074))%bool then 4 * m - 1 else 4 * m - 2 in
  let hi := 4 * m + 2 in
  let closed := Z.even m in
  match in_interval closed lo hi (e - 2) c j,
        in_interval closed lo hi (e - 2) (c + 1) j with
  | false, false => None
  | true, false => Some c
  | false, true => Some (c + 1)
  | true, true => match cmp_dec_bin (2 * c + 1) j (2 * m) e with
                  | Gt => Some c
                  | _ => Some (c + 1)
                  end
  end.

Fixpoint shortest (fuel : nat) (m e k n : Z) : Z * Z :=
  match fuel with
  | O => (m, k)
  | S fuel' =>
      match candidate m e k n with
      | Some c => if c =? 10 ^ n then (1, k + 1) else (c, k)
      | None => shortest fuel' m e k (n + 1)
      end
  end.

Definition zeros (n : Z) : string :=
  string_of_list_ascii (repeat "0"%char (Z.to_nat n)).
Definition take_str (n : Z) (s : string) : string :=
  substring 0 (Z.to_nat n) s.
Definition drop_str (n : Z) (s : string) : string :=
  substring (Z.to_nat n) (String.length s - Z.to_nat n) s.

(** [repr(x)], which is also [str(x)] and what [f"{x}"] inserts:
    exponent notation when the decimal point falls outside the digits
    by more than CPython's thresholds. *)
Definition float_repr (x : float) : string :=
  match Prim2SF x with
  | S754_nan => "nan"
  | S754_infinity s => sign_str s +:+ "inf"
  | S754_zero s => sign_str s +:+ "0.0"
  | S754_finite s m e =>
      let '(c, k) := shortest 17 (Z.pos m) e (decpt (Z.pos m) e) 1 in
      let digits := pretty c in
      let n := Z.of_nat (String.length digits) in
      sign_str s +:+
      (if ((k <=? -4) || (16 <? k))%bool then
         take_str 1 digits +:+ (if 1 <? n then "." +:+ drop_str 1 digits else "")
         +:+ "e" +:+ (if k - 1 <? 0 then "-" else "+")
         +:+ (if Z.abs (k - 1) <? 10 then "0" else "") +:+ pretty (Z.abs (k - 1))
       else if k <=? 0 then "0." +:+ zeros (- k) +:+ digits
       else if n <=? k then digits +:+ zeros (k - n) +:+ ".0"
       else take_str k digits +:+ "." +:+ drop_str k digits)
  end.

End PyFloat.

Import PyStr PyFloat.

(** ** The data model *)

(** One entry of [self.current_orders]: the dictionary literal of
    [create_order]. *)
Record Order := mkOrder {
  customer_name : string;
  items : list string;
  total : float
}.

(** The instance state set up by [__init__]. *)
Record OrderPlugin := mkOrderPlugin {
  current_orders : gmap string Order;
  order_counter : Z
}.

Definition OrderPlugin_init : OrderPlugin :=
  {| current_orders := ∅; order_counter := 0 |}.

Inductive exception :=
| OverflowError (msg : string).

Inductive outcome :=
| Returned (msg : string) (self' : OrderPlugin)
| Raised (e : exception) (self' : OrderPlugin).

Definition state_of (o : outcome) : OrderPlugin :=
  match o with
  | Returned _ self' => self'
  | Raised _ self' => self'
  end.

(** The [price_lookup] literal of [add_item_to_order], in source order. *)
Definition price_table : list (string * float) :=
  [ ("margherita", 10.99%float);
    ("pepperoni", 12.99%float);
    ("vegetarian", 11.99%float);
    ("hawaiian", 13.99%float);
    ("supreme", 14.99%float);
    ("garlic bread", 4.99%float);
    ("caesar salad", 5.99%float);
    ("chicken wings", 8.99%float);
    ("soda", 1.99%float);
    ("water", 1.49%float);
    ("beer", 5.99%float) ].

Definition price_lookup : gmap string float := list_to_map price_table.

(** ** The operations *)

(** [f"ORD-{self.order_counter}"] *)
Definition order_id_of (counter : Z) : string := "ORD-" +:+ pretty counter.

Definition create_order (customer_name : string) (self : OrderPlugin) : outcome :=
  let order_counter' := order_counter self + 1 in
  let order_id := order_id_of order_counter' in
  let current_orders' :=
    <[order_id := {| customer_name := customer_name; items := []; total := 0%float |}]>
      (current_orders self) in
  Returned
    ("Order created for " +:+ customer_name +:+ " with order ID: " +:+ order_id
       +:+ ". You can now add items to this order.")
    {| current_orders := current_orders'; order_counter := order_counter' |}.

(** The order after [quantity] units at [item_price] were added: the
    [for _ in range(quantity)] loop appends nothing when [quantity <= 0],
    while the total moves by the product whatever its sign. *)
Definition add_to_order (order : Order) (item_name : string)
    (quantity : Z) (total_item_price : float) : Order :=
  {| customer_name := customer_name order;
     items := items order ++ repeat item_name (Z.to_nat quantity);
     total := (total order + total_item_price)%float |}.

Definition added_msg (order_id item_name : string) (quantity : Z)
    (item_price new_total : float) : string :=
  "Added " +:+ pretty quantity +:+ "x " +:+ item_name +:+ " ($"
    +:+ float_repr item_price +:+ " each) to order " +:+ order_id
    +:+ ". Current order total: $" +:+ format_2f new_total.

Definition order_not_found_create_msg (order_id : string) : string :=
  "Order ID " +:+ order_id +:+ " not found. Please create an order first.".

Definition item_not_found_msg (item_name : string) : string :=
  "Item '" +:+ item_name
    +:+ "' not found in our menu. Please check the menu for available items.".

Definition add_item_to_order (order_id item_name : string) (quantity : Z)
    (self : OrderPlugin) : outcome :=
  match current_orders self !! order_id with
  | None => Returned (order_not_found_create_msg order_id) self
  | Some order =>
      let item_name_lower := lower item_name in
      match price_lookup !! item_name_lower with
      | None => Returned (item_not_found_msg item_name) self
      | Some item_price =>
          match float_of_int quantity with
          | None => Raised (OverflowError "int too large to convert to float") self
          | Some fquantity =>
              let total_item_price := (item_price * fquantity)%float in
              let order' := add_to_order order item_name quantity total_item_price in
              Returned
                (added_msg order_id item_name quantity item_price (total order'))
                {| current_orders := <[order_id := order']> (current_orders self);
                   order_counter := order_counter self |}
          end
      end
  end.

(** [items_summary[item] += 1] or [items_summary[item] = 1]: a new key
    goes to the end, an old one keeps its place. *)
Fixpoint summary_incr (item : string) (items_summary : list (string * Z))
    : list (string * Z) :=
  match items_summary with
  | [] => [(item, 1)]
  | (k, n) :: rest =>
      if decide (k = item) then (k, n + 1) :: rest
      else (k, n) :: summary_incr item rest
  end.

(** The loop of [get_order_status] over [order["items"]]. *)
Definition items_summary (items : list string) : list (string * Z) :=
  fold_left (λ acc item, summary_incr item acc) items [].

Definition items_list (items : list string) : list string :=
  map (λ '(item, quantity), pretty quantity +:+ "x " +:+ item) (items_summary items).

Definition indent : string := "        ".

Definition order_not_found_check_msg (order_id : string) : string :=
  "Order ID " +:+ order_id +:+ " not found. Please check your order ID.".

Definition status_msg (order_id : string) (order : Order) : string :=
  nl +:+ indent +:+ "Order ID: " +:+ order_id +:+ nl
     +:+ indent +:+ "Customer: " +:+ customer_name order +:+ nl
     +:+ indent +:+ "Items: " +:+ join ", " (items_list (items order)) +:+ nl
     +:+ indent +:+ "Total: $" +:+ format_2f (total order) +:+ nl
     +:+ indent.

Definition get_order_status (order_id : string) (self : OrderPlugin) : outcome :=
  match current_orders self !! order_id with
  | None => Returned (order_not_found_check_msg order_id) self
  | Some order => Returned (status_msg order_id order) self
  end.

Definition completion_message (order_id : string) (order : Order) : string :=
  nl +:+ indent +:+ "Thank you, " +:+ customer_name order +:+ "!" +:+ nl
     +:+ indent +:+ nl
     +:+ indent +:+ "Your order (ID: " +:+ order_id
     +:+ ") has been confirmed and is being prepared." +:+ nl
     +:+ indent +:+ "Total: $" +:+ format_2f (total order) +:+ nl
     +:+ indent +:+ nl
     +:+ indent +:+ "Your delicious pizza will be ready in approximately 25-30 minutes."
     +:+ nl +:+ indent.

Definition complete_order (order_id : string) (self : OrderPlugin) : outcome :=
  match current_orders self !! order_id with
  | None => Returned (order_not_found_check_msg order_id) self
  | Some order => Returned (completion_message order_id order) self
  end.

(** ** Sequences of calls *)

Inductive call :=
| CreateOrder (customer_name : string)
| AddItemToOrder (order_id item_name : string) (quantity : Z)
| GetOrderStatus (order_id : string)
| CompleteOrder (order_id : string).

Definition exec (c : call) (self : OrderPlugin) : outcome :=
  match c with
  | CreateOrder customer_name => create_order customer_name self
  | AddItemToOrder order_id item_name quantity =>
      add_item_to_order order_id item_name quantity self
  | GetOrderStatus order_id => get_order_status order_id self
  | CompleteOrder order_id => complete_order order_id self
  end.

(** The plugin object outlives an exception, so a raised call is followed
    by the next one on the state it left. *)
Fixpoint run (calls : list call) (self : OrderPlugin) : OrderPlugin :=
  match calls with
  | [] => self
  | c :: rest => run rest (state_of (exec c self))
  end.

Fixpoint outcomes (calls : list call) (self : OrderPlugin) : list outcome :=
  match calls with
  | [] => []
  | c :: rest => exec c self :: outcomes rest (state_of (exec c self))
  end.

(** ** Notions the properties are stated with *)

(** The distinct names of a list, in the order of their first
    occurrence. *)
Fixpoint first_seen (l : list string) : list string :=
  match l with
  | [] => []
  | x :: r => x :: filter (λ y, y ≠ x) (first_seen r)
  end.

(** How many entries of [l] are exactly [x]. *)
Definition occurrences (x : string) (l : list string) : Z :=
  Z.of_nat (length (filter (λ y, y = x) l)).

(** The price-table value for an entry of an item list, looked up the
    way [add_item_to_order] looked it up when the entry was added. *)
Definition unit_price (item : string) : option float :=
  price_lookup !! lower item.

(** The unit prices of the entries added up one at a time, from [0.0] in
    list order ([s += unit_price(item)] for each entry); [None] if an
    entry has no price. *)
Definition unit_price_sum (items : list string) : option float :=
  foldl (λ acc item, a ← acc; p ← unit_price item; Some (a + p)%float)
        (Some 0%float) items.

(** One successful addition to an order: the name, the quantity and the
    float the quantity was converted to. *)
Record addition := mkAddition {
  added_name : string;
  added_quantity : Z;
  added_float : float
}.

(** The entries a list of additions appends. *)
Definition added_items (adds : list addition) : list string :=
  flat_map (λ a, repeat (added_name a) (Z.to_nat (added_quantity a))) adds.

(** The total a list of additions accumulates: [total += item_price *
    quantity] once per addition, from [0.0]. *)
Definition accumulated_total (adds : list addition) : option float :=
  foldl (λ acc a, t ← acc; p ← unit_price (added_name a);
                  Some (t + p * added_float a)%float)
        (Some 0%float) adds.

(** The quantity of a call, for those that have one. *)
Definition quantity_of (c : call) : option Z :=
  match c with
  | AddItemToOrder _ _ quantity => Some quantity
  | _ => None
  end.

(** The id [create_order] assigns in state [self]. *)
Definition next_order_id (self : OrderPlugin) : string :=
  order_id_of (order_counter self + 1).

(** The ids assigned by the [create_order] calls of a sequence, in call
    order. *)
Fixpoint created_ids (calls : list call) (self : OrderPlugin) : list string :=
  match calls with
  | [] => []
  | c :: rest =>
      match c with
      | CreateOrder _ => [next_order_id self]
      | _ => []
      end ++ created_ids rest (state_of (exec c self))
  end.

Definition is_create (c : call) : bool :=
  match c with
  | CreateOrder _ => true
  | _ => false
  end.

Fixpoint count_creates (calls : list call) : Z :=
  match calls with
  | [] => 0
  | c :: rest => (if is_create c then 1 else 0) + count_creates rest
  end.

(** Every id in the store was assigned from a counter value already
    passed. *)
Definition ids_assigned (self : OrderPlugin) : Prop :=
  0 ≤ order_counter self
  ∧ ∀ id, is_Some (current_orders self !! id) →
          ∃ k, 1 ≤ k ≤ order_counter self ∧ id = order_id_of k.

(** The exact rational value of a finite float. *)
Definition float_value (x : float) : option Q :=
  match Prim2SF x with
  | S754_zero _ => Some 0%Q
  | S754_finite s m e =>
      let v := if 0 <=? e then inject_Z (Z.pos m * 2 ^ e)
               else Qmake (Z.pos m) (Z.to_pos (2 ^ (- e))) in
      Some (if s then Qopp v else v)
  | _ => None
  end.

(** The sum of the unit prices of the entries in exact arithmetic. *)
Definition exact_unit_price_sum (items : list string) : option Q :=
  foldl (λ acc item, a ← acc; p ← unit_price item; v ← float_value p; Some (a + v)%Q)
        (Some 0%Q) items.

(** An order whose item list and total are what some list of additions
    with quantities in [P] leaves. *)
Definition accumulates (P : Z → Prop) (order : Order) : Prop :=
  ∃ adds,
    Forall (λ a, P (added_quantity a)
                 ∧ float_of_int (added_quantity a) = Some (added_float a)) adds
    ∧ items order = added_items adds
    ∧ accumulated_total adds = Some (total order).

Definition quantity_in (P : Z → Prop) (c : call) : Prop :=
  ∀ quantity, quantity_of c = Some quantity → P quantity.

(** ** Further notions about the order store *)

(** The counts of a status summary added up. *)
Definition summary_total (items_summary : list (string * Z)) : Z :=
  foldr (λ '(_, n) acc, n + acc) 0 items_summary.

(** The store holds exactly the ids assigned so far: one entry per
    counter value from 1 to [order_counter]. *)
Definition store_exact (self : OrderPlugin) : Prop :=
  0 ≤ order_counter self
  ∧ size (current_orders self) = Z.to_nat (order_counter self)
  ∧ ∀ id, is_Some (current_orders self !! id)
          ↔ ∃ k, 1 ≤ k ≤ order_counter self ∧ id = order_id_of k.

(** What an order may become while the plugin runs: same customer, the
    old entries still in front. *)
Definition extends (order order' : Order) : Prop :=
  customer_name order' = customer_name order
  ∧ items order `prefix_of` items order'.

(** What the caller of a method sees: the string returned or the
    exception raised. *)
Definition reply (o : outcome) : string + exception :=
  match o with
  | Returned msg _ => inl msg
  | Raised e _ => inr e
  end.

(** The order an addition puts in place of [order], when it goes
    through. *)
Definition updated_order (item_name : string) (quantity : Z) (order : Order)
    : option Order :=
  item_price ← price_lookup !! lower item_name;
  fquantity ← float_of_int quantity;
  Some (add_to_order order item_name quantity (item_price * fquantity)%float).

(** A summary with the count of [item] raised by [n]. *)
Definition summary_bump (item : string) (n : Z) (items_summary : list (string * Z))
    : list (string * Z) :=
  map (λ '(k, c), (k, if decide (k = item) then c + n else c)) items_summary.

(** ** More of Python's [str] *)

(** [c.upper()] for one ASCII character. *)
Definition upper_ascii (c : ascii) : ascii :=
  let n := nat_of_ascii c in
  if ((97 <=? n)%nat && (n <=? 122)%nat)%bool then ascii_of_nat (n - 32) else c.

(** Is [c] a cased character: an ASCII letter. *)
Definition is_cased (c : ascii) : bool :=
  let n := nat_of_ascii c in
  (((65 <=? n)%nat && (n <=? 90)%nat) || ((97 <=? n)%nat && (n <=? 122)%nat))%bool.

Fixpoint title_from (previous_is_cased : bool) (s : string) : string :=
  match s with
  | EmptyString => EmptyString
  | String c r =>
      String (if previous_is_cased then lower_ascii c else upper_ascii c)
             (title_from (is_cased c) r)
  end.

(** [s.title()]: a letter that follows a letter is lower-cased, any other
    letter is upper-cased. *)
Definition title (s : string) : string := title_from false s.

(** [sub in s], decided. *)
Fixpoint startswithb (p s : string) : bool :=
  match p, s with
  | EmptyString, _ => true
  | String a p', String b s' => if Ascii.eqb a b then startswithb p' s' else false
  | String _ _, EmptyString => false
  end.

Fixpoint containsb (sub s : string) : bool :=
  if startswithb sub s then true
  else match s with
       | EmptyString => false
       | String _ s' => containsb sub s'
       end.

(** ** The menu plugin *)

Module MenuPlugin.

(** One value of the [menu_items] dictionary of [get_item_info]. *)
Record menu_item := mkMenuItem {
  description : string;
  price : float;
  ingredients : string;
  vegetarian : bool;
  vegan : bool;
  gluten_free_option : bool
}.

(** The [menu_items] literal, in source order. *)
Definition menu_items_table : list (string * menu_item) :=
  [
    ("margherita",
     {| description := "Classic tomato sauce and mozzarella cheese. A traditional Italian pizza.";
        price := 10.99%float;
        ingredients := "Tomato sauce, mozzarella cheese, fresh basil, olive oil, salt";
        vegetarian := true;
        vegan := false;
        gluten_free_option := true |});
    ("pepperoni",
     {| description := "Tomato sauce, mozzarella, and pepperoni. Our most popular pizza.";
        price := 12.99%float;
        ingredients := "Tomato sauce, mozzarella cheese, pepperoni slices";
        vegetarian := false;
        vegan := false;
        gluten_free_option := true |});
    ("vegetarian",
     {| description := "Tomato sauce, mozzarella, bell peppers, onions, and mushrooms.";
        price := 11.99%float;
        ingredients := "Tomato sauce, mozzarella cheese, bell peppers, red onions, mushrooms, olive oil";
        vegetarian := true;
        vegan := false;
        gluten_free_option := true |});
    ("hawaiian",
     {| description := "Tomato sauce, mozzarella, ham, and pineapple. A sweet and savory combination.";
        price := 13.99%float;
        ingredients := "Tomato sauce, mozzarella cheese, ham, pineapple chunks";
        vegetarian := false;
        vegan := false;
        gluten_free_option := true |});
    ("supreme",
     {| description := "Tomato sauce, mozzarella, pepperoni, sausage, bell peppers, onions, and olives. Loaded with toppings.";
        price := 14.99%float;
        ingredients := "Tomato sauce, mozzarella cheese, pepperoni, Italian sausage, bell peppers, red onions, black olives";
        vegetarian := false;
        vegan := false;
        gluten_free_option := true |});
    ("garlic bread",
     {| description := "Toasted bread with garlic butter and herbs.";
        price := 4.99%float;
        ingredients := "Baguette, garlic butter, Italian herbs, parmesan cheese";
        vegetarian := true;
        vegan := false;
        gluten_free_option := false |});
    ("caesar salad",
     {| description := "Romaine lettuce, croutons, parmesan cheese, and Caesar dressing.";
        price := 5.99%float;
        ingredients := "Romaine lettuce, croutons, parmesan cheese, Caesar dressing";
        vegetarian := true;
        vegan := false;
        gluten_free_option := true |});
    ("chicken wings",
     {| description := "Crispy chicken wings with your choice of Buffalo, BBQ, or Garlic Parmesan sauce.";
        price := 8.99%float;
        ingredients := "Chicken wings, choice of sauce, celery sticks, blue cheese or ranch dressing";
        vegetarian := false;
        vegan := false;
        gluten_free_option := true |})
  ].

Definition menu_items : gmap string menu_item := list_to_map menu_items_table.

(** The lines of the [menu] literal of [get_menu], without their
    indentation. *)
Definition menu_lines : list string :=
  [
    "Pizza Menu:";
    "- Margherita ($10.99): Classic tomato sauce and mozzarella cheese";
    "- Pepperoni ($12.99): Tomato sauce, mozzarella, and pepperoni";
    "- Vegetarian ($11.99): Tomato sauce, mozzarella, bell peppers, onions, and mushrooms";
    "- Hawaiian ($13.99): Tomato sauce, mozzarella, ham, and pineapple";
    "- Supreme ($14.99): Tomato sauce, mozzarella, pepperoni, sausage, bell peppers, onions, and olives";
    "";
    "Sides:";
    "- Garlic Bread ($4.99)";
    "- Caesar Salad ($5.99)";
    "- Chicken Wings ($8.99)";
    "";
    "Drinks:";
    "- Soda ($1.99): Coke, Sprite, Dr. Pepper";
    "- Bottled Water ($1.49)";
    "- Craft Beer ($5.99)"
  ].

(** The triple-quoted literal: a newline, every line indented and ended,
    and the indentation of the closing quotes. *)
Definition get_menu : string :=
  nl +:+ foldr (λ line rest, indent +:+ line +:+ nl +:+ rest) indent menu_lines.

Definition yes_no (b : bool) : string := if b then "Yes" else "No".

Definition indent12 : string := "            ".

Definition item_info_msg (item_name : string) (item : menu_item) : string :=
  nl +:+ indent12 +:+ title item_name +:+ ":" +:+ nl
     +:+ indent12 +:+ "Description: " +:+ description item +:+ nl
     +:+ indent12 +:+ "Price: $" +:+ float_repr (price item) +:+ nl
     +:+ indent12 +:+ "Ingredients: " +:+ ingredients item +:+ nl
     +:+ indent12 +:+ "Vegetarian: " +:+ yes_no (vegetarian item) +:+ nl
     +:+ indent12 +:+ "Vegan: " +:+ yes_no (vegan item) +:+ nl
     +:+ indent12 +:+ "Gluten-free Option: " +:+ yes_no (gluten_free_option item) +:+ nl
     +:+ indent12.

Definition item_unknown_msg (item_name : string) : string :=
  "Sorry, I couldn't find information about '" +:+ item_name
    +:+ "'. Please check the menu for available items.".

Definition get_item_info (item_name : string) : string :=
  let item_name_lower := lower item_name in
  match menu_items !! item_name_lower with
  | Some item => item_info_msg item_name item
  | None => item_unknown_msg item_name
  end.

End MenuPlugin.

(** ** Truth values and whitespace *)

(** The truth value of an optional string: [None] and the empty string
    are false. *)
Definition truthy (v : option string) : bool :=
  match v with
  | Some s => negb (String.eqb s "")
  | None => false
  end.

(** [c.isspace()] for one ASCII character: tab to carriage return, the
    four separators 28-31, and the space. *)
Definition is_space (c : ascii) : bool :=
  let n := nat_of_ascii c in
  (((9 <=? n)%nat && (n <=? 13)%nat) || ((28 <=? n)%nat && (n <=? 32)%nat))%bool.

Fixpoint lstrip (s : string) : string :=
  match s with
  | EmptyString => EmptyString
  | String c r => if is_space c then lstrip r else s
  end.

Fixpoint rstrip (s : string) : string :=
  match s with
  | EmptyString => EmptyString
  | String c r =>
      match rstrip r with
      | EmptyString => if is_space c then EmptyString else String c EmptyString
      | r' => String c r'
      end
  end.

(** [s.strip()] *)
Definition strip (s : string) : string := rstrip (lstrip s).

(** ** The HTTP server *)

Section Server.

Context {thread : Type}.

(** What [agent_system.get_response] did: answered with a content and a
    thread, answered with something false, or raised an exception whose
    [str] is [text]. *)
Inductive agent_outcome :=
| Response (content : string) (response_thread : thread)
| NoResponse
| AgentError (text : string).

(** The agent, as the server sees it: from the message and the thread
    passed (if any) to what came back. *)
Variable get_response : string → option thread → agent_outcome.

(** [str(e)] for an [HTTPException] with a status code and a detail. *)
Variable str_HTTPException : Z → string → string.

Record MessageRequest := mkMessageRequest {
  message : string;
  threadId : option string
}.

(** A handler's result: the body it returned, or the [HTTPException] that
    left it. *)
Inductive http_result (A : Type) :=
| Ok (body : A)
| HTTPException (status_code : Z) (detail : string).

Record MessageResponse := mkMessageResponse {
  response : string;
  response_threadId : string
}.

(** [request.threadId or f"thread-{len(active_threads) + 1}"] *)
Definition thread_id_for (request : MessageRequest)
    (active_threads : gmap string thread) : string :=
  if truthy (threadId request) then default "" (threadId request)
  else "thread-" +:+ pretty (Z.of_nat (size active_threads) + 1).

(** [process_message]: the result and the [active_threads] it leaves.
    Every exception raised in the body, the handler's own 500 included,
    is caught by [except Exception] and raised again as a 500 carrying
    its text. *)
Definition process_message (request : MessageRequest)
    (active_threads : gmap string thread)
    : http_result MessageResponse * gmap string thread :=
  let thread_id := thread_id_for request active_threads in
  match get_response (message request) (active_threads !! thread_id) with
  | Response content response_thread =>
      (Ok _ {| response := content; response_threadId := thread_id |},
       <[thread_id := response_thread]> active_threads)
  | NoResponse =>
      (HTTPException _ 500
         (str_HTTPException 500 "Failed to get response from agent"),
       active_threads)
  | AgentError text => (HTTPException _ 500 text, active_threads)
  end.

(** [delete_thread]: [{"success": True}] is the body [true]. The 404 is
    raised inside the [try], so [except Exception] turns it into a 500. *)
Definition delete_thread (threadId : string) (active_threads : gmap string thread)
    : http_result bool * gmap string thread :=
  match active_threads !! threadId with
  | Some _ => (Ok _ true, delete threadId active_threads)
  | None =>
      (HTTPException _ 500 (str_HTTPException 404 "Thread not found"),
       active_threads)
  end.

End Server.

Arguments Ok {A} body.
Arguments HTTPException {A} status_code detail.

(** The thread ids a server hands out on its own: the keys are exactly
    "thread-1" ... "thread-n" for the [n] threads stored. *)
Definition numbered {thread : Type} (active_threads : gmap string thread) : Prop :=
  ∀ id, is_Some (active_threads !! id)
        ↔ ∃ k, 1 ≤ k ≤ Z.of_nat (size active_threads) ∧ id = "thread-" +:+ pretty k.


(** ** Streaming a response *)

(** A text as the sequence of its characters, for any alphabet: what
    [str.split()] and [str.strip()] do depends on the characters only
    through [str.isspace]. *)
Module PyText.

Section Text.

Context {char : Type}.

(** [c.isspace()] *)
Variable isspace : char → bool.

(** [s.split()]: the maximal runs of non-space characters, in order.
    [word] is the run being read. *)
Fixpoint split_from (word s : list char) : list (list char) :=
  match s with
  | [] => match word with [] => [] | _ => [word] end
  | c :: r =>
      if isspace c then
        match word with [] => split_from [] r | _ => word :: split_from [] r end
      else split_from (word ++ [c]) r
  end.

Definition split (s : list char) : list (list char) := split_from [] s.

Fixpoint lstrip (s : list char) : list char :=
  match s with
  | [] => []
  | c :: r => if isspace c then lstrip r else s
  end.

Fixpoint rstrip (s : list char) : list char :=
  match s with
  | [] => []
  | c :: r =>
      match rstrip r with
      | [] => if isspace c then [] else [c]
      | r' => c :: r'
      end
  end.

(** [s.strip()] *)
Definition strip (s : list char) : list char := rstrip (lstrip s).

(** [sep.join(l)] *)
Fixpoint join (sep : list char) (l : list (list char)) : list char :=
  match l with
  | [] => []
  | [x] => x
  | x :: r => x ++ sep ++ join sep r
  end.

End Text.

End PyText.

(** [range(0, n, 3)] *)
Definition range_by_3 (n : nat) : list nat :=
  map (λ j, 3 * j)%nat (seq 0 ((n + 2) / 3)).

Section Streaming.

Context {char : Type}.
Variable isspace : char → bool.

(** The character [" "]. *)
Variable space : char.

(** The loop of [stream_message] over the word indices: the content of
    each event it yields, given the text accumulated so far. *)
Fixpoint stream_chunks (words : list (list char)) (indices : list nat)
    (full_response : list char) : list (list char) :=
  match indices with
  | [] => []
  | i :: rest =>
      let chunk := PyText.join [space] (take 3 (drop i words)) in
      let full_response' := full_response ++ chunk ++ [space] in
      PyText.strip isspace full_response' :: stream_chunks words rest full_response'
  end.

(** The contents of the "content" events for a response text. *)
Definition stream_contents (content : list char) : list (list char) :=
  let words := PyText.split isspace content in
  stream_chunks words (range_by_3 (length words)) [].

(** The words of a list with a space after each: what [full_response]
    holds after those words were sent. *)
Definition spaced (words : list (list char)) : list char :=
  foldr (λ w rest, w ++ [space] ++ rest) [] words.

(** A word: not empty and free of space characters. *)
Definition is_word (w : list char) : Prop :=
  w ≠ [] ∧ Forall (λ c, isspace c = false) w.

End Streaming.
(** ** Placing an order through the pizza API *)

(** [s.split(sep)] for a one-character separator: the pieces between the
    separators, empty ones included. [piece] is the piece being read. *)
Fixpoint split_on_from (sep : ascii) (piece s : string) : list string :=
  match s with
  | EmptyString => [piece]
  | String c r =>
      if Ascii.eqb c sep then piece :: split_on_from sep "" r
      else split_on_from sep (piece +:+ String c "") r
  end.

Definition split_on (sep : ascii) (s : string) : list string :=
  split_on_from sep "" s.

(** How often [sep] occurs in [s]. *)
Fixpoint count_char (sep : ascii) (s : string) : nat :=
  match s with
  | EmptyString => 0
  | String c r => (if Ascii.eqb c sep then 1 else 0) + count_char sep r
  end.

(** One element of the ["items"] list of the request body. *)
Record order_item := mkOrderItem {
  pizzaId : string;
  quantity : Z;
  extraToppingIds : option (list string)
}.

(** How far [place_order] gets before it waits for the API: it returned a
    string without sending anything, or it posted a body with a user id
    and items. *)
Inductive place_order_step :=
| ReturnedEarly (msg : string)
| Posted (userId : string) (items : list order_item).

Section PlaceOrder.

(** Python's [int] on a string, and the text of the [ValueError] it
    raises when the string is no integer literal. *)
Variable int : string → option Z.
Variable int_error : string → string.

(** [[int(qty.strip()) for qty in pieces]]: the first piece that is no
    integer stops the comprehension with its error text. *)
Fixpoint parse_quantities (pieces : list string) : string + list Z :=
  match pieces with
  | [] => inr []
  | qty :: rest =>
      match int (strip qty) with
      | None => inl (int_error (strip qty))
      | Some n =>
          match parse_quantities rest with
          | inl e => inl e
          | inr ns => inr (n :: ns)
          end
      end
  end.

(** The loop over [extra_toppings.split(";")]. *)
Definition parse_extra_toppings (extra_toppings : string) : list (list string) :=
  map (λ toppings_str,
         if decide (strip toppings_str = "") then []
         else map strip (split_on "," toppings_str))
      (split_on ";" extra_toppings).

(** The loop over [enumerate(pizza_id_list)] from index [i] on; [None]
    stands for the [IndexError] of [quantity_list[i]]. *)
Fixpoint build_items (i : nat) (pizza_id_list : list string) (quantity_list : list Z)
    (extra_toppings_list : option (list (list string))) : option (list order_item) :=
  match pizza_id_list with
  | [] => Some []
  | pizza_id :: rest =>
      n ← quantity_list !! i;
      items ← build_items (S i) rest quantity_list extra_toppings_list;
      let extra :=
        match extra_toppings_list with
        | Some l =>
            match l !! i with
            | Some (t :: ts) => Some (t :: ts)
            | _ => None
            end
        | None => None
        end in
      Some ({| pizzaId := pizza_id; quantity := n; extraToppingIds := extra |} :: items)
  end.

(** [place_order] up to the request it posts. An exception in the body
    is caught and returned as "Error placing order: ...". *)
Definition place_order_request (user_id pizza_ids quantities : string)
    (extra_toppings : option string) : place_order_step :=
  let pizza_id_list := map strip (split_on "," pizza_ids) in
  match parse_quantities (split_on "," quantities) with
  | inl e => ReturnedEarly ("Error placing order: " +:+ e)
  | inr quantity_list =>
      if decide (length pizza_id_list ≠ length quantity_list) then
        ReturnedEarly "Error: The number of pizza IDs must match the number of quantities."
      else
        let extra_toppings_list :=
          if truthy extra_toppings
          then Some (parse_extra_toppings (default "" extra_toppings))
          else None in
        let posted :=
          match build_items 0 pizza_id_list quantity_list extra_toppings_list with
          | Some items => Posted user_id items
          | None => ReturnedEarly "Error placing order: list index out of range"
          end in
        match extra_toppings_list with
        | Some l =>
            if decide (length pizza_id_list ≠ length l) then
              ReturnedEarly
                "Error: The number of extra topping sets must match the number of pizzas."
            else posted
        | None => posted
        end
  end.

End PlaceOrder.


(** *** [place_order] for any [str.strip] *)

Section PlaceOrderAnyStrip.

(** [str.strip], whatever it counts as whitespace, with Python's [int]
    and its error text as above. *)
Variable str_strip : string → string.
Variable int : string → option Z.
Variable int_error : string → string.

Fixpoint parse_quantities_with (pieces : list string) : string + list Z :=
  match pieces with
  | [] => inr []
  | qty :: rest =>
      match int (str_strip qty) with
      | None => inl (int_error (str_strip qty))
      | Some n =>
          match parse_quantities_with rest with
          | inl e => inl e
          | inr ns => inr (n :: ns)
          end
      end
  end.

Definition parse_extra_toppings_with (extra_toppings : string) : list (list string) :=
  map (λ toppings_str,
         if decide (str_strip toppings_str = "") then []
         else map str_strip (split_on "," toppings_str))
      (split_on ";" extra_toppings).

Definition place_order_request_with (user_id pizza_ids quantities : string)
    (extra_toppings : option string) : place_order_step :=
  let pizza_id_list := map str_strip (split_on "," pizza_ids) in
  match parse_quantities_with (split_on "," quantities) with
  | inl e => ReturnedEarly ("Error placing order: " +:+ e)
  | inr quantity_list =>
      if decide (length pizza_id_list ≠ length quantity_list) then
        ReturnedEarly "Error: The number of pizza IDs must match the number of quantities."
      else
        let extra_toppings_list :=
          if truthy extra_toppings
          then Some (parse_extra_toppings_with (default "" extra_toppings))
          else None in
        let posted :=
          match build_items 0 pizza_id_list quantity_list extra_toppings_list with
          | Some items => Posted user_id items
          | None => ReturnedEarly "Error placing order: list index out of range"
          end in
        match extra_toppings_list with
        | Some l =>
            if decide (length pizza_id_list ≠ length l) then
              ReturnedEarly
                "Error: The number of extra topping sets must match the number of pizzas."
            else posted
        | None => posted
        end
  end.

End PlaceOrderAnyStrip.

(** ** The order plugin for any [str.lower] *)

(** Did a call return the confirmation of [add_item_to_order]? Failure
    is reported in the returned text only, so this is how a caller tells:
    the two not-found messages begin with "Order ID" and "Item". *)
Definition confirmed (o : outcome) : bool :=
  match o with
  | Returned msg _ => startswithb "Added " msg
  | Raised _ _ => false
  end.

(** [add_item_to_order] and the runs of calls once more, with
    [item_name.lower()] left to a parameter; the definitions above are
    these at [PyStr.lower]. *)
Module AnyLower.

Section WithLower.

(** [str.lower], whatever it does to the characters outside ASCII. *)
Variable str_lower : string → string.

Definition add_item_to_order (order_id item_name : string) (quantity : Z)
    (self : OrderPlugin) : outcome :=
  match current_orders self !! order_id with
  | None => Returned (order_not_found_create_msg order_id) self
  | Some order =>
      let item_name_lower := str_lower item_name in
      match price_lookup !! item_name_lower with
      | None => Returned (item_not_found_msg item_name) self
      | Some item_price =>
          match float_of_int quantity with
          | None => Raised (OverflowError "int too large to convert to float") self
          | Some fquantity =>
              let total_item_price := (item_price * fquantity)%float in
              let order' := add_to_order order item_name quantity total_item_price in
              Returned
                (added_msg order_id item_name quantity item_price (total order'))
                {| current_orders := <[order_id := order']> (current_orders self);
                   order_counter := order_counter self |}
          end
      end
  end.

Definition exec (c : call) (self : OrderPlugin) : outcome :=
  match c with
  | CreateOrder customer_name => create_order customer_name self
  | AddItemToOrder order_id item_name quantity =>
      add_item_to_order order_id item_name quantity self
  | GetOrderStatus order_id => get_order_status order_id self
  | CompleteOrder order_id => complete_order order_id self
  end.

Fixpoint run (calls : list call) (self : OrderPlugin) : OrderPlugin :=
  match calls with
  | [] => self
  | c :: rest => run rest (state_of (exec c self))
  end.

(** The price-table value for a name, looked up the way
    [add_item_to_order] looks it up. *)
Definition unit_price (item : string) : option float :=
  price_lookup !! str_lower item.

(** The total a list of additions accumulates on top of [start]:
    [total += item_price * quantity] once per addition. *)
Definition accumulated_from (start : float) (adds : list addition) : option float :=
  foldl (λ acc a, t ← acc; p ← unit_price (added_name a);
                  Some (t + p * added_float a)%float)
        (Some start) adds.

Definition accumulated_total (adds : list addition) : option float :=
  accumulated_from 0%float adds.

(** The addition a call makes to the order [order_id] in state [self]:
    one if it is an [add_item_to_order] on that id that returns the
    confirmation, none otherwise. *)
Definition addition_of (order_id : string) (c : call) (self : OrderPlugin)
    : list addition :=
  match c with
  | AddItemToOrder id item_name quantity =>
      if decide (id = order_id) then
        if confirmed (exec c self) then
          match float_of_int quantity with
          | Some fquantity => [mkAddition item_name quantity fquantity]
          | None => []
          end
        else []
      else []
  | _ => []
  end.

(** The successful additions to the order [order_id] among [calls] run
    from [self], in call order. *)
Fixpoint additions_to (order_id : string) (calls : list call) (self : OrderPlugin)
    : list addition :=
  match calls with
  | [] => []
  | c :: rest =>
      addition_of order_id c self
        ++ additions_to order_id rest (state_of (exec c self))
  end.

End WithLower.

End AnyLower.
(** ** Basic facts *)

Lemma append_cons (x : ascii) (a b : string) : String x a +:+ b = String x (a +:+ b).
Proof. reflexivity. Qed.

Lemma append_assoc (a b c : string) : (a +:+ b) +:+ c = a +:+ (b +:+ c).
Proof.
  induction a as [|x a IH]; [reflexivity|].
  rewrite !append_cons. f_equal. exact IH.
Qed.

Lemma price_table_keys_NoDup : NoDup (price_table.*1).
Proof. apply (bool_decide_unpack _). vm_compute. exact I. Qed.

Lemma price_lookup_size : size price_lookup = 11%nat.
Proof. vm_compute. reflexivity. Qed.

Lemma price_lookup_elem (key : string) (price : float) :
  price_lookup !! key = Some price ↔ (key, price) ∈ price_table.
Proof.
  unfold price_lookup. symmetry.
  apply elem_of_list_to_map, price_table_keys_NoDup.
Qed.

(** The keys of the price table are already lower case. *)
Lemma price_lookup_keys_lower (key : string) (price : float) :
  price_lookup !! key = Some price → lower key = key.
Proof.
  rewrite price_lookup_elem. unfold price_table.
  rewrite !elem_of_cons, elem_of_nil.
  intros H. repeat (destruct H as [H|H]; [by inversion H|]). done.
Qed.

(** What a successful addition does, with the three look-ups named. *)
Lemma add_item_to_order_ok (self : OrderPlugin) (order_id item_name : string)
    (quantity : Z) (order : Order) (item_price fquantity : float) :
  current_orders self !! order_id = Some order →
  price_lookup !! lower item_name = Some item_price →
  float_of_int quantity = Some fquantity →
  add_item_to_order order_id item_name quantity self =
    let order' := add_to_order order item_name quantity (item_price * fquantity)%float in
    Returned (added_msg order_id item_name quantity item_price (total order'))
      {| current_orders := <[order_id := order']> (current_orders self);
         order_counter := order_counter self |}.
Proof. intros Ho Hp Hq. unfold add_item_to_order. by rewrite Ho, Hp, Hq. Qed.

(** The plugin of the first part is the one of [AnyLower] at the ASCII
    [lower]. *)
Lemma add_item_to_order_any_lower :
  AnyLower.add_item_to_order lower = add_item_to_order.
Proof. reflexivity. Qed.

Lemma exec_any_lower : AnyLower.exec lower = exec.
Proof. reflexivity. Qed.

Lemma run_any_lower (calls : list call) (self : OrderPlugin) :
  AnyLower.run lower calls self = run calls self.
Proof. revert self. induction calls as [|c calls IH]; intros self; [done | apply IH]. Qed.

(** ** Rejected additions *)

(** C5. For an order id that is not in the store, whatever the item name
    and quantity, [add_item_to_order] returns the order-not-found message
    and leaves the whole store as it was: the id still has no entry and
    every other entry is the one it was. *)
Theorem add_item_unknown_order_unchanged (self : OrderPlugin)
    (order_id item_name : string) (quantity : Z) :
  current_orders self !! order_id = None →
  add_item_to_order order_id item_name quantity self
    = Returned ("Order ID " +:+ order_id +:+ " not found. Please create an order first.")
               self
  ∧ current_orders (state_of (add_item_to_order order_id item_name quantity self))
      !! order_id = None
  ∧ ∀ other,
      current_orders (state_of (add_item_to_order order_id item_name quantity self))
        !! other = current_orders self !! other.
Proof.
  intros Hnone. unfold add_item_to_order. rewrite Hnone. simpl.
  split; [reflexivity | split; [exact Hnone | reflexivity]].
Qed.

Lemma add_item_unknown_order_unchanged_witness :
  current_orders OrderPlugin_init !! "ORD-1" = None
  ∧ add_item_to_order "ORD-1" "soda" 2 OrderPlugin_init
    = Returned "Order ID ORD-1 not found. Please create an order first."
               OrderPlugin_init.
Proof.
  split; [reflexivity|].
  apply (add_item_unknown_order_unchanged OrderPlugin_init "ORD-1" "soda" 2).
  reflexivity.
Defined.

(** C6. For an existing order and an item name whose lower-cased form is
    not a key of the price table, [add_item_to_order] returns the
    item-not-found message and the store is unchanged, so the order keeps
    its total and its item list. This holds whatever [str.lower] does to
    the name, for every quantity. *)
Theorem add_item_unknown_item_unchanged (str_lower : string → string)
    (self : OrderPlugin) (order_id item_name : string) (quantity : Z) (order : Order) :
  current_orders self !! order_id = Some order →
  price_lookup !! str_lower item_name = None →
  AnyLower.add_item_to_order str_lower order_id item_name quantity self
    = Returned ("Item '" +:+ item_name
                  +:+ "' not found in our menu. Please check the menu for available items.")
               self
  ∧ current_orders
      (state_of (AnyLower.add_item_to_order str_lower order_id item_name quantity self))
      !! order_id = Some order.
Proof.
  intros Ho Hp. unfold AnyLower.add_item_to_order. rewrite Ho, Hp. simpl.
  split; [reflexivity | exact Ho].
Qed.

Lemma add_item_unknown_item_unchanged_witness :
  let self := state_of (create_order "Alice" OrderPlugin_init) in
  let order := {| customer_name := "Alice"; items := []; total := 0%float |} in
  current_orders self !! "ORD-1" = Some order
  ∧ price_lookup !! lower "Calzone" = None
  ∧ add_item_to_order "ORD-1" "Calzone" 1 self
    = Returned "Item 'Calzone' not found in our menu. Please check the menu for available items."
               self.
Proof.
  intros self order.
  assert (Ho : current_orders self !! "ORD-1" = Some order) by (vm_compute; reflexivity).
  assert (Hp : price_lookup !! lower "Calzone" = None) by (vm_compute; reflexivity).
  split; [exact Ho | split; [exact Hp|]].
  apply (add_item_unknown_item_unchanged lower self "ORD-1" "Calzone" 1 order Ho Hp).
Defined.

(** ** Completion *)

(** C7. For an existing order, [complete_order] returns the thank-you
    message, which contains the customer name and the current total to
    two decimals, and leaves the store unchanged: the entry is still the
    same order, and [get_order_status] afterwards answers exactly as it
    did before, with the status of that order. *)
Theorem complete_order_keeps_order (self : OrderPlugin) (order_id : string)
    (order : Order) :
  current_orders self !! order_id = Some order →
  let self' := state_of (complete_order order_id self) in
  complete_order order_id self = Returned (completion_message order_id order) self
  ∧ contains ("Thank you, " +:+ customer_name order +:+ "!")
             (completion_message order_id order)
  ∧ contains ("Total: $" +:+ format_2f (total order))
             (completion_message order_id order)
  ∧ self' = self
  ∧ current_orders self' !! order_id = Some order
  ∧ get_order_status order_id self' = Returned (status_msg order_id order) self'.
Proof.
  intros Ho self'. subst self'.
  unfold complete_order, get_order_status. rewrite Ho. simpl. rewrite Ho.
  repeat split.
  - unfold completion_message.
    exists (nl +:+ indent). eexists.
    by rewrite !append_assoc.
  - unfold completion_message.
    exists (nl +:+ indent +:+ "Thank you, " +:+ customer_name order +:+ "!" +:+ nl
              +:+ indent +:+ nl
              +:+ indent +:+ "Your order (ID: " +:+ order_id
              +:+ ") has been confirmed and is being prepared." +:+ nl +:+ indent).
    eexists. by rewrite !append_assoc.
Qed.

Lemma complete_order_keeps_order_witness :
  let self := state_of (create_order "Alice" OrderPlugin_init) in
  current_orders self !! "ORD-1"
    = Some {| customer_name := "Alice"; items := []; total := 0%float |}
  ∧ contains "Total: $0.00" (completion_message "ORD-1"
      {| customer_name := "Alice"; items := []; total := 0%float |}).
Proof.
  intros self.
  assert (Ho : current_orders self !! "ORD-1"
    = Some {| customer_name := "Alice"; items := []; total := 0%float |})
    by (vm_compute; reflexivity).
  split; [exact Ho|].
  exact (proj1 (proj2 (proj2 (complete_order_keeps_order self "ORD-1" _ Ho)))).
Defined.

(** ** Creation *)

Lemma create_order_returns (customer_name : string) (self : OrderPlugin) :
  create_order customer_name self =
    Returned
      ("Order created for " +:+ customer_name +:+ " with order ID: "
         +:+ next_order_id self +:+ ". You can now add items to this order.")
      {| current_orders :=
           <[next_order_id self :=
               {| customer_name := customer_name; items := []; total := 0%float |}]>
             (current_orders self);
         order_counter := order_counter self + 1 |}.
Proof. reflexivity. Qed.

(** C9. [create_order] returns (it raises nothing) for every customer
    name and in every state, the empty name included, and stores an order
    with that name, no items and total [0.0] under the id it announces.
    Right after [create_order("Alice")], [get_order_status] on that id
    reports customer Alice, an empty item summary and total 0.00. *)
Theorem create_order_then_status (self : OrderPlugin) :
  (∀ customer_name, ∃ msg self',
      create_order customer_name self = Returned msg self'
      ∧ contains (next_order_id self) msg
      ∧ current_orders self' !! next_order_id self
        = Some {| customer_name := customer_name; items := []; total := 0%float |})
  ∧ (∃ msg self', create_order "" self = Returned msg self')
  ∧ let self' := state_of (create_order "Alice" self) in
    get_order_status (next_order_id self) self' =
      Returned
        (nl +:+ indent +:+ "Order ID: " +:+ next_order_id self +:+ nl
            +:+ indent +:+ "Customer: Alice" +:+ nl
            +:+ indent +:+ "Items: " +:+ nl
            +:+ indent +:+ "Total: $0.00" +:+ nl
            +:+ indent)
        self'.
Proof.
  split; [|split].
  - intros name. do 2 eexists. rewrite create_order_returns.
    split; [reflexivity|]. split.
    + exists ("Order created for " +:+ name +:+ " with order ID: "). eexists.
      by rewrite !append_assoc.
    + simpl. apply lookup_insert_eq.
  - do 2 eexists. apply create_order_returns.
  - intros self'. subst self'. rewrite create_order_returns.
    unfold get_order_status. simpl. rewrite lookup_insert_eq.
    reflexivity.
Qed.

(** ** Accumulation *)

Lemma price_lookup_soda : price_lookup !! lower "Soda" = Some 1.99%float.
Proof. vm_compute. reflexivity. Qed.

Lemma float_of_int_1 : float_of_int 1 = Some 1%float.
Proof. vm_compute. reflexivity. Qed.

Lemma items_list_twice (item_name : string) :
  items_list [item_name; item_name] = ["2x " +:+ item_name].
Proof.
  unfold items_list, items_summary. cbn [fold_left summary_incr].
  rewrite decide_True by done. reflexivity.
Qed.

(** C8. On a fresh order (no items, total [0.0]), two calls adding one
    unit of the same item name, for any name whose lower-cased form is in
    the price table, both return a confirmation; the order then holds the
    name twice and the total [0.0 + price * 1 + price * 1], and
    [get_order_status] shows the one group "2x <name>" and that total.
    For "Soda" this is the item summary "2x Soda" and the total 3.98. *)
Theorem add_same_item_twice (self : OrderPlugin) (order_id customer item_name : string)
    (item_price : float) :
  current_orders self !! order_id
    = Some {| customer_name := customer; items := []; total := 0%float |} →
  price_lookup !! lower item_name = Some item_price →
  let self1 := state_of (add_item_to_order order_id item_name 1 self) in
  let self2 := state_of (add_item_to_order order_id item_name 1 self1) in
  let total1 := (0 + item_price * 1)%float in
  let total2 := (0 + item_price * 1 + item_price * 1)%float in
  add_item_to_order order_id item_name 1 self
    = Returned ("Added 1x " +:+ item_name +:+ " ($" +:+ float_repr item_price
                  +:+ " each) to order " +:+ order_id
                  +:+ ". Current order total: $" +:+ format_2f total1) self1
  ∧ add_item_to_order order_id item_name 1 self1
    = Returned ("Added 1x " +:+ item_name +:+ " ($" +:+ float_repr item_price
                  +:+ " each) to order " +:+ order_id
                  +:+ ". Current order total: $" +:+ format_2f total2) self2
  ∧ current_orders self2 !! order_id
    = Some {| customer_name := customer; items := [item_name; item_name];
              total := total2 |}
  ∧ get_order_status order_id self2 =
      Returned
        (nl +:+ indent +:+ "Order ID: " +:+ order_id +:+ nl
            +:+ indent +:+ "Customer: " +:+ customer +:+ nl
            +:+ indent +:+ "Items: 2x " +:+ item_name +:+ nl
            +:+ indent +:+ "Total: $" +:+ format_2f total2 +:+ nl
            +:+ indent)
        self2
  ∧ (item_name = "Soda" →
     item_price = 1.99%float
     ∧ get_order_status order_id self2 =
         Returned
           (nl +:+ indent +:+ "Order ID: " +:+ order_id +:+ nl
               +:+ indent +:+ "Customer: " +:+ customer +:+ nl
               +:+ indent +:+ "Items: 2x Soda" +:+ nl
               +:+ indent +:+ "Total: $3.98" +:+ nl
               +:+ indent)
           self2).
Proof.
  intros Ho Hp.
  set (order1 := add_to_order
         {| customer_name := customer; items := []; total := 0%float |}
         item_name 1 (item_price * 1)%float).
  set (order2 := add_to_order order1 item_name 1 (item_price * 1)%float).
  pose proof (add_item_to_order_ok self order_id item_name 1 _ _ _
                Ho Hp float_of_int_1) as H1.
  cbv zeta in H1. fold order1 in H1.
  rewrite H1. cbn [state_of].
  match type of H1 with _ = Returned _ ?s => set (self1 := s) in * end.
  assert (Ho1 : current_orders self1 !! order_id = Some order1)
    by apply lookup_insert_eq.
  pose proof (add_item_to_order_ok self1 order_id item_name 1 _ _ _
                Ho1 Hp float_of_int_1) as H2.
  cbv zeta in H2. fold order2 in H2.
  rewrite H2. cbn [state_of].
  match type of H2 with _ = Returned _ ?s => set (self2 := s) in * end.
  assert (Ho2 : current_orders self2 !! order_id = Some order2)
    by apply lookup_insert_eq.
  assert (Hstatus : get_order_status order_id self2 =
      Returned
        (nl +:+ indent +:+ "Order ID: " +:+ order_id +:+ nl
            +:+ indent +:+ "Customer: " +:+ customer +:+ nl
            +:+ indent +:+ "Items: 2x " +:+ item_name +:+ nl
            +:+ indent +:+ "Total: $"
            +:+ format_2f (0 + item_price * 1 + item_price * 1)%float +:+ nl
            +:+ indent)
        self2).
  { unfold get_order_status. rewrite Ho2. unfold status_msg.
    change (items order2) with [item_name; item_name].
    rewrite items_list_twice. cbn [join].
    rewrite !append_assoc. reflexivity. }
  cbv zeta.
  split; [reflexivity|]. split; [reflexivity|]. split; [exact Ho2|].
  split; [exact Hstatus|].
  intros ->. rewrite price_lookup_soda in Hp. injection Hp as <-.
  split; [reflexivity|]. rewrite Hstatus. reflexivity.
Qed.

Lemma add_same_item_twice_witness :
  let self := state_of (create_order "Alice" OrderPlugin_init) in
  current_orders self !! "ORD-1"
    = Some {| customer_name := "Alice"; items := []; total := 0%float |}
  ∧ price_lookup !! lower "Garlic Bread" = Some 4.99%float
  ∧ get_order_status "ORD-1"
      (state_of (add_item_to_order "ORD-1" "Garlic Bread" 1
         (state_of (add_item_to_order "ORD-1" "Garlic Bread" 1 self))))
    = Returned
        (nl +:+ indent +:+ "Order ID: ORD-1" +:+ nl
            +:+ indent +:+ "Customer: Alice" +:+ nl
            +:+ indent +:+ "Items: 2x Garlic Bread" +:+ nl
            +:+ indent +:+ "Total: $9.98" +:+ nl
            +:+ indent)
        (state_of (add_item_to_order "ORD-1" "Garlic Bread" 1
           (state_of (add_item_to_order "ORD-1" "Garlic Bread" 1 self)))).
Proof.
  intros self.
  assert (Ho : current_orders self !! "ORD-1"
    = Some {| customer_name := "Alice"; items := []; total := 0%float |})
    by (vm_compute; reflexivity).
  assert (Hp : price_lookup !! lower "Garlic Bread" = Some 4.99%float)
    by (vm_compute; reflexivity).
  split; [exact Ho|]. split; [exact Hp|].
  destruct (add_same_item_twice self "ORD-1" "Alice" "Garlic Bread" _ Ho Hp)
    as (_ & _ & _ & Hstatus & _).
  rewrite Hstatus. reflexivity.
Defined.

(** ** Quantities that are not positive *)

Lemma added_msg_not_error (order_id item_name : string) (quantity : Z)
    (item_price new_total : float) (id' name' : string) :
  added_msg order_id item_name quantity item_price new_total
    ≠ order_not_found_create_msg id'
  ∧ added_msg order_id item_name quantity item_price new_total
    ≠ item_not_found_msg name'.
Proof. split; discriminate. Qed.

(** C2, as the code has it. For an existing order, an item name whose
    lower-cased form is in the price table and a zero or negative quantity
    that converts to a float, [add_item_to_order] does not reject the
    call: it returns the confirmation string, which is neither error
    message; the item list stays as it was (a range of a non-positive
    length is empty); and the total becomes the old total plus unit price
    times quantity. No other order changes. *)
Theorem add_item_nonpositive_quantity (self : OrderPlugin)
    (order_id item_name : string) (quantity : Z) (order : Order)
    (item_price fquantity : float) :
  current_orders self !! order_id = Some order →
  price_lookup !! lower item_name = Some item_price →
  quantity ≤ 0 →
  float_of_int quantity = Some fquantity →
  let new_total := (total order + item_price * fquantity)%float in
  let msg := "Added " +:+ pretty quantity +:+ "x " +:+ item_name +:+ " ($"
               +:+ float_repr item_price +:+ " each) to order " +:+ order_id
               +:+ ". Current order total: $" +:+ format_2f new_total in
  ∃ self',
    add_item_to_order order_id item_name quantity self = Returned msg self'
    ∧ msg ≠ order_not_found_create_msg order_id
    ∧ msg ≠ item_not_found_msg item_name
    ∧ current_orders self' !! order_id
      = Some {| customer_name := customer_name order;
                items := items order;
                total := new_total |}
    ∧ (∀ other, other ≠ order_id →
         current_orders self' !! other = current_orders self !! other)
    ∧ order_counter self' = order_counter self.
Proof.
  intros Ho Hp Hq Hf new_total msg.
  rewrite (add_item_to_order_ok _ _ _ _ _ _ _ Ho Hp Hf). cbv zeta.
  eexists. split; [reflexivity|].
  split; [apply (proj1 (added_msg_not_error _ _ _ _ _ order_id item_name))|].
  split; [apply (proj2 (added_msg_not_error _ _ _ _ _ order_id item_name))|].
  cbn [current_orders order_counter].
  split; [|split; [|reflexivity]].
  - rewrite lookup_insert_eq. unfold add_to_order.
    replace (Z.to_nat quantity) with 0%nat by lia.
    cbn [repeat]. by rewrite app_nil_r.
  - intros other Hne. by rewrite lookup_insert_ne.
Qed.

Lemma add_item_nonpositive_quantity_witness :
  let self := state_of (create_order "Alice" OrderPlugin_init) in
  current_orders self !! "ORD-1"
    = Some {| customer_name := "Alice"; items := []; total := 0%float |}
  ∧ price_lookup !! lower "soda" = Some 1.99%float
  ∧ -1 ≤ 0
  ∧ float_of_int (-1) = Some (-1)%float
  ∧ ∃ self',
      add_item_to_order "ORD-1" "soda" (-1) self
        = Returned "Added -1x soda ($1.99 each) to order ORD-1. Current order total: $-1.99"
                   self'
      ∧ current_orders self' !! "ORD-1"
        = Some {| customer_name := "Alice"; items := []; total := (-1.99)%float |}.
Proof.
  intros self.
  assert (Ho : current_orders self !! "ORD-1"
    = Some {| customer_name := "Alice"; items := []; total := 0%float |})
    by (vm_compute; reflexivity).
  assert (Hp : price_lookup !! lower "soda" = Some 1.99%float)
    by (vm_compute; reflexivity).
  assert (Hq : -1 ≤ 0) by lia.
  assert (Hf : float_of_int (-1) = Some (-1)%float) by (vm_compute; reflexivity).
  repeat (split; [assumption|]).
  destruct (add_item_nonpositive_quantity self "ORD-1" "soda" (-1) _ _ _ Ho Hp Hq Hf)
    as (self' & Hret & _ & _ & Hlook & _).
  exists self'. split; [exact Hret | exact Hlook].
Defined.

(** The claim as written fails for a negative quantity too large to
    convert: the product [item_price * quantity] raises. *)
Lemma add_item_huge_negative_quantity_raises :
  let self := state_of (create_order "Alice" OrderPlugin_init) in
  current_orders self !! "ORD-1"
    = Some {| customer_name := "Alice"; items := []; total := 0%float |}
  ∧ price_lookup !! "soda" = Some 1.99%float
  ∧ - 2 ^ 1024 ≤ 0
  ∧ add_item_to_order "ORD-1" "soda" (- 2 ^ 1024) self
    = Raised (OverflowError "int too large to convert to float") self.
Proof.
  intros self. repeat split; try (vm_compute; reflexivity).
  vm_compute. discriminate.
Qed.

(** ** Price look-up and the status summary *)

Lemma items_summary_snoc (l : list string) (x : string) :
  items_summary (l ++ [x]) = summary_incr x (items_summary l).
Proof. unfold items_summary. by rewrite fold_left_app. Qed.

Lemma first_seen_elem (l : list string) (x : string) : x ∈ first_seen l ↔ x ∈ l.
Proof.
  induction l as [|y l IH]; simpl; [done|].
  rewrite !elem_of_cons, list_elem_of_filter, IH.
  destruct (decide (x = y)) as [->|Hne]; [by split; left|].
  split.
  - intros [?|[_ ?]]; [by left | by right].
  - intros [?|?]; [by left | by right].
Qed.

Lemma first_seen_NoDup (l : list string) : NoDup (first_seen l).
Proof.
  induction l as [|y l IH]; simpl; [constructor|].
  constructor; [|by apply NoDup_filter].
  rewrite list_elem_of_filter. by intros [? _].
Qed.

Lemma first_seen_snoc (l : list string) (x : string) :
  first_seen (l ++ [x]) = if decide (x ∈ l) then first_seen l else first_seen l ++ [x].
Proof.
  induction l as [|y l IH].
  - case_decide as Hin; [by apply elem_of_nil in Hin | done].
  - change (first_seen ((y :: l) ++ [x]))
      with (y :: filter (λ z, z ≠ y) (first_seen (l ++ [x]))).
    change (first_seen (y :: l)) with (y :: filter (λ z, z ≠ y) (first_seen l)).
    rewrite IH. destruct (decide (x = y)) as [->|Hne].
    + rewrite (decide_True (P := y ∈ y :: l)) by apply list_elem_of_here.
      destruct (decide (y ∈ l)); [done|].
      rewrite filter_app, filter_cons_False, filter_nil, app_nil_r; [done|].
      by intros ?.
    + destruct (decide (x ∈ l)) as [Hin|Hnin].
      * rewrite (decide_True (P := x ∈ y :: l)) by (by apply list_elem_of_further). done.
      * rewrite (decide_False (P := x ∈ y :: l)).
        2:{ rewrite elem_of_cons. by intros [?|?]. }
        rewrite filter_app, filter_cons_True, filter_nil by done. done.
Qed.

Lemma occurrences_snoc (k x : string) (l : list string) :
  occurrences k (l ++ [x]) = occurrences k l + (if decide (x = k) then 1 else 0).
Proof.
  unfold occurrences. rewrite filter_app, length_app.
  destruct (decide (x = k)) as [->|Hne].
  - rewrite filter_cons_True by done. simpl. lia.
  - rewrite filter_cons_False by done. simpl. lia.
Qed.

Lemma occurrences_not_elem (x : string) (l : list string) :
  x ∉ l → occurrences x l = 0.
Proof.
  intros Hnin. unfold occurrences.
  induction l as [|y l IH]; [done|].
  rewrite not_elem_of_cons in Hnin. destruct Hnin as [Hne Hnin].
  rewrite filter_cons_False by (by intros ->). by apply IH.
Qed.

Lemma summary_incr_new (x : string) (f : string → Z) (ks : list string) :
  x ∉ ks →
  summary_incr x (map (λ k, (k, f k)) ks) = map (λ k, (k, f k)) ks ++ [(x, 1)].
Proof.
  induction ks as [|k ks IH]; intros Hnin; simpl; [done|].
  rewrite not_elem_of_cons in Hnin. destruct Hnin as [Hne Hnin].
  rewrite decide_False by (by intros ->). by rewrite IH.
Qed.

Lemma summary_incr_old (x : string) (f g : string → Z) (ks : list string) :
  x ∈ ks → NoDup ks →
  g x = f x + 1 → (∀ k, k ≠ x → g k = f k) →
  summary_incr x (map (λ k, (k, f k)) ks) = map (λ k, (k, g k)) ks.
Proof.
  intros Hin Hnd Hgx Hg.
  induction ks as [|k ks IH]; simpl; [by apply elem_of_nil in Hin|].
  apply NoDup_cons in Hnd as [Hk Hnd].
  destruct (decide (k = x)) as [->|Hne].
  - rewrite Hgx. f_equal. apply map_ext_in. intros k Hkin. f_equal.
    symmetry. apply Hg. intros ->. by apply Hk, list_elem_of_In.
  - rewrite Hg by done. f_equal. apply IH; [|done].
    apply elem_of_cons in Hin as [->|Hin]; done.
Qed.

(** The loop of [get_order_status] against the specification's words:
    one pair per distinct name, in first-seen order, with the number of
    entries that are exactly that name. *)
Lemma items_summary_first_seen (l : list string) :
  items_summary l = map (λ k, (k, occurrences k l)) (first_seen l).
Proof.
  induction l as [|x l IH] using rev_ind; [done|].
  rewrite items_summary_snoc, IH, first_seen_snoc.
  destruct (decide (x ∈ l)) as [Hin|Hnin].
  - apply summary_incr_old.
    + by apply first_seen_elem.
    + apply first_seen_NoDup.
    + rewrite occurrences_snoc, decide_True by done. done.
    + intros k Hne. rewrite occurrences_snoc, decide_False by done. lia.
  - rewrite summary_incr_new by (by rewrite first_seen_elem).
    rewrite map_app. simpl. f_equal.
    + apply map_ext_in. intros k Hk. f_equal.
      rewrite occurrences_snoc, decide_False; [lia|].
      intros ->. apply Hnin. by apply first_seen_elem, list_elem_of_In.
    + rewrite occurrences_snoc, decide_True, occurrences_not_elem by done. done.
Qed.

Example items_summary_keeps_casing :
  items_summary ["Soda"; "pepperoni"; "soda"; "Soda"]
    = [("Soda", 2); ("pepperoni", 1); ("soda", 1)].
Proof. reflexivity. Qed.

(** C4. For an existing order: the price table has eleven entries; an
    item name that agrees with a key of the table up to letter case (any
    casing of a table item) is accepted and charged the price stored under
    that key,
    while the entries appended to the item list are the name as it was
    given; and [get_order_status] renders one "<count>x <name>" group per
    distinct stored name, in first-seen order, counting the entries that
    are exactly that name. *)
Theorem lookup_ignores_case_summary_keeps_name (self : OrderPlugin)
    (order_id : string) (order : Order) :
  current_orders self !! order_id = Some order →
  size price_lookup = 11%nat
  ∧ (∀ item_name key item_price quantity fquantity,
       price_lookup !! key = Some item_price →
       lower item_name = lower key →
       float_of_int quantity = Some fquantity →
       ∃ self',
         add_item_to_order order_id item_name quantity self
           = Returned (added_msg order_id item_name quantity item_price
                         (total order + item_price * fquantity)%float) self'
         ∧ current_orders self' !! order_id
           = Some {| customer_name := customer_name order;
                     items := items order ++ repeat item_name (Z.to_nat quantity);
                     total := (total order + item_price * fquantity)%float |})
  ∧ get_order_status order_id self =
      Returned
        (nl +:+ indent +:+ "Order ID: " +:+ order_id +:+ nl
            +:+ indent +:+ "Customer: " +:+ customer_name order +:+ nl
            +:+ indent +:+ "Items: "
            +:+ join ", "
                  (map (λ name, pretty (occurrences name (items order)) +:+ "x " +:+ name)
                       (first_seen (items order)))
            +:+ nl
            +:+ indent +:+ "Total: $" +:+ format_2f (total order) +:+ nl
            +:+ indent)
        self.
Proof.
  intros Ho. split; [exact price_lookup_size|]. split.
  - intros item_name key item_price quantity fquantity Hp Hkey Hf.
    rewrite (price_lookup_keys_lower _ _ Hp) in Hkey. rewrite <- Hkey in Hp.
    rewrite (add_item_to_order_ok _ _ _ _ _ _ _ Ho Hp Hf). cbv zeta.
    eexists. split; [reflexivity|].
    cbn [current_orders]. by rewrite lookup_insert_eq.
  - unfold get_order_status. rewrite Ho. unfold status_msg, items_list.
    rewrite items_summary_first_seen, map_map. reflexivity.
Qed.

Lemma lookup_ignores_case_summary_keeps_name_witness :
  let self := state_of (create_order "Alice" OrderPlugin_init) in
  current_orders self !! "ORD-1"
    = Some {| customer_name := "Alice"; items := []; total := 0%float |}
  ∧ ∃ self',
      add_item_to_order "ORD-1" "PePPeroni" 2 self
        = Returned
            "Added 2x PePPeroni ($12.99 each) to order ORD-1. Current order total: $25.98"
            self'
      ∧ current_orders self' !! "ORD-1"
        = Some {| customer_name := "Alice"; items := ["PePPeroni"; "PePPeroni"];
                  total := 25.98%float |}.
Proof.
  intros self.
  assert (Ho : current_orders self !! "ORD-1"
    = Some {| customer_name := "Alice"; items := []; total := 0%float |})
    by (vm_compute; reflexivity).
  split; [exact Ho|].
  destruct (lookup_ignores_case_summary_keeps_name self "ORD-1" _ Ho) as (_ & Hadd & _).
  destruct (Hadd "PePPeroni" "pepperoni" 12.99%float 2 2%float) as (self' & Hret & Hlook);
    try (vm_compute; reflexivity).
  exists self'. split; [exact Hret | exact Hlook].
Defined.

(** ** Order ids *)

Lemma order_id_of_inj (a b : Z) : order_id_of a = order_id_of b → a = b.
Proof.
  unfold order_id_of. intros H.
  apply (String.app_inj "ORD-") in H. by apply pretty_Z_inj in H.
Qed.

Lemma exec_order_counter (c : call) (self : OrderPlugin) :
  order_counter (state_of (exec c self))
    = order_counter self + (if is_create c then 1 else 0).
Proof.
  destruct c as [name|id item q|id|id]; simpl.
  - reflexivity.
  - unfold add_item_to_order.
    destruct (current_orders self !! id); simpl; [|lia].
    destruct (price_lookup !! lower item); simpl; [|lia].
    destruct (float_of_int q); simpl; lia.
  - unfold get_order_status. destruct (current_orders self !! id); simpl; lia.
  - unfold complete_order. destruct (current_orders self !! id); simpl; lia.
Qed.

Lemma count_creates_nonneg (calls : list call) : 0 ≤ count_creates calls.
Proof. induction calls as [|c calls IH]; simpl; [lia | destruct (is_create c); lia]. Qed.

(** From any state, the ids a sequence of calls assigns are the next
    counter values in order. *)
Lemma created_ids_from (calls : list call) (self : OrderPlugin) :
  created_ids calls self
    = map order_id_of (seqZ (order_counter self + 1) (count_creates calls)).
Proof.
  revert self. induction calls as [|c calls IH]; intros self; [done|].
  cbn [created_ids count_creates]. rewrite IH, exec_order_counter.
  pose proof (count_creates_nonneg calls) as Hn.
  destruct c as [name|id item q|id|id]; cbn [is_create app].
  - rewrite (seqZ_cons (order_counter self + 1)) by lia. cbn [map].
    unfold next_order_id. do 3 f_equal; lia.
  - do 2 f_equal; lia.
  - do 2 f_equal; lia.
  - do 2 f_equal; lia.
Qed.

Lemma exec_ids_assigned (c : call) (self : OrderPlugin) :
  ids_assigned self → ids_assigned (state_of (exec c self)).
Proof.
  intros [Hpos Hinv]. split; [rewrite exec_order_counter; destruct (is_create c); lia|].
  destruct c as [name|id item q|id|id]; simpl.
  - intros id'. cbn [current_orders order_counter].
    destruct (decide (order_id_of (order_counter self + 1) = id')) as [<-|Hne].
    + intros _. exists (order_counter self + 1). split; [lia|done].
    + rewrite lookup_insert_ne by done. intros Hsome.
      destruct (Hinv id' Hsome) as (k & Hk & ->). exists k. split; [lia|done].
  - unfold add_item_to_order.
    destruct (current_orders self !! id) as [order|] eqn:Ho; simpl; [|done].
    destruct (price_lookup !! lower item); simpl; [|done].
    destruct (float_of_int q); simpl; [|done].
    intros id'. destruct (decide (id = id')) as [<-|Hne].
    + intros _. apply Hinv. by rewrite Ho.
    + rewrite lookup_insert_ne by done. apply Hinv.
  - unfold get_order_status. by destruct (current_orders self !! id).
  - unfold complete_order. by destruct (current_orders self !! id).
Qed.

Lemma run_ids_assigned (calls : list call) (self : OrderPlugin) :
  ids_assigned self → ids_assigned (run calls self).
Proof.
  revert self. induction calls as [|c calls IH]; intros self Hinv; [done|].
  simpl. by apply IH, exec_ids_assigned.
Qed.

Lemma init_ids_assigned : ids_assigned OrderPlugin_init.
Proof.
  split; [done|]. intros id [o Ho].
  unfold OrderPlugin_init in Ho. cbn [current_orders] in Ho.
  by rewrite lookup_empty in Ho.
Qed.

(** The id about to be assigned is not yet a key of the store. *)
Lemma next_order_id_fresh (self : OrderPlugin) :
  ids_assigned self → current_orders self !! next_order_id self = None.
Proof.
  intros [_ Hinv]. apply eq_None_not_Some. intros Hsome.
  destruct (Hinv _ Hsome) as (k & Hk & Heq).
  apply order_id_of_inj in Heq. lia.
Qed.

Lemma run_app (pre post : list call) (self : OrderPlugin) :
  run (pre ++ post) self = run post (run pre self).
Proof. revert self. induction pre as [|c pre IH]; intros self; [done | apply IH]. Qed.

(** C3. Whatever calls are interleaved, the ids assigned by the
    [create_order] calls of a sequence run from the initial state are
    "ORD-1", "ORD-2", ... in call order: the prefix "ORD-" followed by the
    incremented counter. They are pairwise distinct, a later one carries a
    strictly larger counter value than an earlier one, and each is absent
    from the store at the moment it is assigned (so none is reused), is
    announced in the returned message and is a key of the store
    afterwards. *)
Theorem created_ids_distinct_increasing (calls : list call) :
  let ids := created_ids calls OrderPlugin_init in
  ids = map (λ k, "ORD-" +:+ pretty k) (seqZ 1 (count_creates calls))
  ∧ NoDup ids
  ∧ (∀ i j a b, (i < j)%nat → ids !! i = Some a → ids !! j = Some b →
       ∃ ka kb, a = order_id_of ka ∧ b = order_id_of kb ∧ ka < kb)
  ∧ (∀ pre customer post, calls = pre ++ CreateOrder customer :: post →
       let self := run pre OrderPlugin_init in
       current_orders self !! next_order_id self = None
       ∧ ∃ msg self',
           create_order customer self = Returned msg self'
           ∧ contains (next_order_id self) msg
           ∧ is_Some (current_orders self' !! next_order_id self)
           ∧ order_counter self' = order_counter self + 1).
Proof.
  intros ids.
  assert (Hids : ids = map order_id_of (seqZ 1 (count_creates calls))).
  { subst ids. by rewrite created_ids_from. }
  split; [exact Hids|]. split; [|split].
  - rewrite Hids. change (NoDup (order_id_of <$> seqZ 1 (count_creates calls))).
    apply (NoDup_fmap_2 order_id_of (Inj0 := order_id_of_inj)), NoDup_seqZ.
  - intros i j a b Hij Ha Hb. rewrite Hids in Ha, Hb.
    apply (list_lookup_fmap_Some_1 order_id_of) in Ha as (ka & -> & Ha).
    apply (list_lookup_fmap_Some_1 order_id_of) in Hb as (kb & -> & Hb).
    apply lookup_seqZ in Ha as [-> _]. apply lookup_seqZ in Hb as [-> _].
    exists (1 + Z.of_nat i), (1 + Z.of_nat j). repeat split; lia.
  - intros pre customer post _ self.
    split.
    + apply next_order_id_fresh, run_ids_assigned, init_ids_assigned.
    + do 2 eexists. rewrite create_order_returns.
      split; [reflexivity|]. split; [|split; [|reflexivity]].
      * exists ("Order created for " +:+ customer +:+ " with order ID: "). eexists.
        by rewrite !append_assoc.
      * cbn [current_orders]. rewrite lookup_insert_eq. by eexists.
Qed.

(** ** The running total *)

Section Accumulation.

Variable P : Z → Prop.

Lemma accumulates_add (order : Order) (item_name : string) (quantity : Z)
    (item_price fquantity : float) :
  accumulates P order →
  P quantity →
  price_lookup !! lower item_name = Some item_price →
  float_of_int quantity = Some fquantity →
  accumulates P (add_to_order order item_name quantity (item_price * fquantity)%float).
Proof.
  intros (adds & Hok & Hitems & Htotal) HP Hp Hf.
  exists (adds ++ [mkAddition item_name quantity fquantity]). split; [|split].
  - apply Forall_app. split; [exact Hok|]. by apply Forall_singleton.
  - unfold add_to_order, added_items. cbn [items].
    rewrite flat_map_app, Hitems. cbn [flat_map added_name added_quantity].
    by rewrite app_nil_r.
  - unfold accumulated_total in *. rewrite foldl_app, Htotal.
    cbn [foldl added_name added_float mbind option_bind]. unfold unit_price.
    rewrite Hp. reflexivity.
Qed.

Lemma exec_accumulates (c : call) (self : OrderPlugin) :
  quantity_in P c →
  (∀ id order, current_orders self !! id = Some order → accumulates P order) →
  ∀ id order, current_orders (state_of (exec c self)) !! id = Some order →
              accumulates P order.
Proof.
  intros Hq Hinv. destruct c as [name|oid item q|oid|oid]; simpl.
  - intros id order. cbn [current_orders].
    destruct (decide (order_id_of (order_counter self + 1) = id)) as [<-|Hne].
    + rewrite lookup_insert_eq. intros [= <-]. exists []. by repeat split.
    + rewrite lookup_insert_ne by done. apply Hinv.
  - unfold add_item_to_order.
    destruct (current_orders self !! oid) as [o|] eqn:Ho; [|exact Hinv].
    destruct (price_lookup !! lower item) as [p|] eqn:Hp; [|exact Hinv].
    destruct (float_of_int q) as [fq|] eqn:Hf; [|exact Hinv].
    intros id order. cbn [state_of current_orders].
    destruct (decide (oid = id)) as [<-|Hne].
    + rewrite lookup_insert_eq. intros [= <-].
      apply accumulates_add; [by eapply Hinv | by apply Hq | done | done].
    + rewrite lookup_insert_ne by done. apply Hinv.
  - unfold get_order_status. by destruct (current_orders self !! oid).
  - unfold complete_order. by destruct (current_orders self !! oid).
Qed.

Lemma run_accumulates (calls : list call) (self : OrderPlugin) :
  Forall (quantity_in P) calls →
  (∀ id order, current_orders self !! id = Some order → accumulates P order) →
  ∀ id order, current_orders (run calls self) !! id = Some order →
              accumulates P order.
Proof.
  revert self. induction calls as [|c calls IH]; intros self Hall Hinv; [exact Hinv|].
  apply Forall_cons in Hall as [Hc Hall]. simpl.
  apply IH; [exact Hall|]. by apply exec_accumulates.
Qed.

End Accumulation.

Lemma init_accumulates (P : Z → Prop) (id : string) (order : Order) :
  current_orders OrderPlugin_init !! id = Some order → accumulates P order.
Proof.
  unfold OrderPlugin_init. cbn [current_orders]. by rewrite lookup_empty.
Qed.

(** *** The additions a run makes to one order *)

Lemma confirmed_add_item (str_lower : string → string) (order_id item_name : string)
    (quantity : Z) (self : OrderPlugin) :
  confirmed (AnyLower.add_item_to_order str_lower order_id item_name quantity self)
    = match current_orders self !! order_id, price_lookup !! str_lower item_name,
            float_of_int quantity with
      | Some _, Some _, Some _ => true
      | _, _, _ => false
      end.
Proof.
  unfold AnyLower.add_item_to_order.
  destruct (current_orders self !! order_id); [|reflexivity].
  destruct (price_lookup !! str_lower item_name); [|reflexivity].
  destruct (float_of_int quantity); reflexivity.
Qed.

Lemma exec_ids_assigned_any (str_lower : string → string) (c : call)
    (self : OrderPlugin) :
  ids_assigned self → ids_assigned (state_of (AnyLower.exec str_lower c self)).
Proof.
  intros [Hpos Hinv].
  destruct c as [name|id item q|id|id]; simpl.
  - split; [cbn [order_counter]; lia|].
    intros id'. cbn [current_orders order_counter].
    destruct (decide (order_id_of (order_counter self + 1) = id')) as [<-|Hne].
    + intros _. exists (order_counter self + 1). split; [lia|done].
    + rewrite lookup_insert_ne by done. intros Hsome.
      destruct (Hinv id' Hsome) as (k & Hk & ->). exists k. split; [lia|done].
  - unfold AnyLower.add_item_to_order.
    destruct (current_orders self !! id) as [order|] eqn:Ho; [|by split].
    destruct (price_lookup !! str_lower item); [|by split].
    destruct (float_of_int q); [|by split].
    split; [done|]. cbn [state_of current_orders order_counter].
    intros id'. destruct (decide (id = id')) as [<-|Hne].
    + intros _. apply Hinv. by rewrite Ho.
    + rewrite lookup_insert_ne by done. apply Hinv.
  - unfold get_order_status. by destruct (current_orders self !! id).
  - unfold complete_order. by destruct (current_orders self !! id).
Qed.

Lemma accumulated_from_app (str_lower : string → string) (start middle : float)
    (adds adds' : list addition) :
  AnyLower.accumulated_from str_lower start adds = Some middle →
  AnyLower.accumulated_from str_lower start (adds ++ adds')
    = AnyLower.accumulated_from str_lower middle adds'.
Proof.
  unfold AnyLower.accumulated_from. intros H. by rewrite foldl_app, H.
Qed.

(** One call: the entries and the total of the order [order_id] (no
    entries and [0.0] while it does not exist) move by the addition the
    call makes to it. *)
Lemma exec_addition (str_lower : string → string) (order_id : string) (c : call)
    (self : OrderPlugin) :
  ids_assigned self →
  let self' := state_of (AnyLower.exec str_lower c self) in
  let adds := AnyLower.addition_of str_lower order_id c self in
  from_option items [] (current_orders self' !! order_id)
    = from_option items [] (current_orders self !! order_id) ++ added_items adds
  ∧ AnyLower.accumulated_from str_lower
      (from_option total 0%float (current_orders self !! order_id)) adds
    = Some (from_option total 0%float (current_orders self' !! order_id)).
Proof.
  intros Hinv self' adds. subst self' adds.
  destruct c as [name|id item q|id|id].
  - cbn [AnyLower.exec AnyLower.addition_of added_items flat_map]. rewrite app_nil_r.
    rewrite create_order_returns. cbn [state_of current_orders].
    destruct (decide (next_order_id self = order_id)) as [<-|Hne].
    + rewrite lookup_insert_eq, (next_order_id_fresh _ Hinv). done.
    + rewrite lookup_insert_ne by done. done.
  - unfold AnyLower.addition_of.
    cbn [AnyLower.exec]. rewrite confirmed_add_item.
    unfold AnyLower.add_item_to_order.
    destruct (current_orders self !! id) as [o|] eqn:Ho.
    2:{ cbn [state_of]. destruct (decide (id = order_id)); simpl; by rewrite app_nil_r. }
    destruct (price_lookup !! str_lower item) as [p|] eqn:Hp.
    2:{ cbn [state_of]. destruct (decide (id = order_id)); simpl; by rewrite app_nil_r. }
    destruct (float_of_int q) as [fq|] eqn:Hf.
    2:{ cbn [state_of]. destruct (decide (id = order_id)); simpl; by rewrite app_nil_r. }
    cbn [state_of current_orders].
    destruct (decide (id = order_id)) as [<-|Hne].
    + rewrite lookup_insert_eq, Ho.
      cbn [from_option add_to_order items total added_items flat_map
           added_name added_quantity].
      rewrite app_nil_r. split; [reflexivity|].
      unfold AnyLower.accumulated_from, AnyLower.unit_price.
      cbn [foldl added_name added_float mbind option_bind]. by rewrite Hp.
    + rewrite lookup_insert_ne by done. simpl. by rewrite app_nil_r.
  - cbn [AnyLower.exec AnyLower.addition_of added_items flat_map]. rewrite app_nil_r.
    unfold get_order_status. by destruct (current_orders self !! id).
  - cbn [AnyLower.exec AnyLower.addition_of added_items flat_map]. rewrite app_nil_r.
    unfold complete_order. by destruct (current_orders self !! id).
Qed.

(** A run of calls: what the order [order_id] holds at the end is what it
    held at the start (nothing, if it did not exist) followed by the
    successful additions to it, in call order. *)
Lemma run_additions (str_lower : string → string) (order_id : string)
    (calls : list call) (self : OrderPlugin) (order : Order) :
  ids_assigned self →
  current_orders (AnyLower.run str_lower calls self) !! order_id = Some order →
  let adds := AnyLower.additions_to str_lower order_id calls self in
  items order = from_option items [] (current_orders self !! order_id) ++ added_items adds
  ∧ AnyLower.accumulated_from str_lower
      (from_option total 0%float (current_orders self !! order_id)) adds
    = Some (total order).
Proof.
  revert self. induction calls as [|c calls IH]; intros self Hinv Ho adds; subst adds.
  - cbn [AnyLower.run] in Ho. rewrite Ho. simpl. by rewrite app_nil_r.
  - cbn [AnyLower.run] in Ho. cbn [AnyLower.additions_to].
    destruct (exec_addition str_lower order_id c self Hinv) as [Hitems Htotal].
    destruct (IH _ (exec_ids_assigned_any str_lower c self Hinv) Ho) as [Hitems' Htotal'].
    split.
    + rewrite Hitems', Hitems. unfold added_items.
      by rewrite flat_map_app, app_assoc.
    + by rewrite (accumulated_from_app _ _ _ _ _ Htotal).
Qed.

Lemma additions_to_quantities (str_lower : string → string) (P : Z → Prop)
    (order_id : string) (calls : list call) (self : OrderPlugin) :
  Forall (quantity_in P) calls →
  Forall (λ a, P (added_quantity a)
               ∧ float_of_int (added_quantity a) = Some (added_float a))
         (AnyLower.additions_to str_lower order_id calls self).
Proof.
  revert self. induction calls as [|c calls IH]; intros self Hall; [constructor|].
  apply Forall_cons in Hall as [Hc Hall]. cbn [AnyLower.additions_to].
  apply Forall_app. split; [|by apply IH].
  destruct c as [name|id item q|id|id]; try constructor.
  unfold AnyLower.addition_of.
  destruct (decide (id = order_id)); [|constructor].
  destruct (confirmed _); [|constructor].
  destruct (float_of_int q) as [fq|] eqn:Hf; [|constructor].
  apply Forall_singleton. split; [by apply Hc | exact Hf].
Qed.

(** C1, as the code has it. Take any sequence of calls whose quantities
    are not negative, run from the initial state, and any order in the
    store at the end. Let [adds] be the additions the run made to that
    order: one for each [add_item_to_order] call on its id that returned
    the confirmation, in call order, with the name and the quantity of
    the call. Then the order's item list is the concatenation, in that
    order, of [quantity] copies of each name, and its total is the float
    accumulated from [0.0] by adding, once per addition, the table price
    of the lower-cased name times the quantity. This holds whatever
    [str.lower] does to the names. *)
Theorem total_accumulates_additions (str_lower : string → string)
    (calls : list call) (order_id : string) (order : Order) :
  Forall (quantity_in (λ quantity, 0 ≤ quantity)) calls →
  current_orders (AnyLower.run str_lower calls OrderPlugin_init) !! order_id
    = Some order →
  let adds := AnyLower.additions_to str_lower order_id calls OrderPlugin_init in
  Forall (λ a, 0 ≤ added_quantity a
               ∧ float_of_int (added_quantity a) = Some (added_float a)) adds
  ∧ items order = added_items adds
  ∧ AnyLower.accumulated_total str_lower adds = Some (total order).
Proof.
  intros Hall Ho adds. split; [by apply additions_to_quantities|].
  exact (run_additions str_lower order_id calls OrderPlugin_init order
           init_ids_assigned Ho).
Qed.

Ltac solve_quantities :=
  repeat (apply Forall_cons; split;
          [intros ? Hq; simpl in Hq; simplify_eq; cbv beta; try lia; try reflexivity|]);
  constructor.

Lemma total_accumulates_additions_witness :
  let calls := [AddItemToOrder "ORD-1" "soda" 1; CreateOrder "Alice";
                AddItemToOrder "ORD-1" "pepperoni" 7; CreateOrder "Bob";
                AddItemToOrder "ORD-2" "beer" 2; AddItemToOrder "ORD-1" "Calzone" 1;
                AddItemToOrder "ORD-1" "Soda" 0; GetOrderStatus "ORD-1";
                AddItemToOrder "ORD-1" "Water" 2] in
  let order := {| customer_name := "Alice";
                  items := repeat "pepperoni" 7 ++ ["Water"; "Water"];
                  total := (0 + 12.99 * 7 + 1.99 * 0 + 1.49 * 2)%float |} in
  let adds := [mkAddition "pepperoni" 7 7; mkAddition "Soda" 0 0;
               mkAddition "Water" 2 2] in
  Forall (quantity_in (λ quantity, 0 ≤ quantity)) calls
  ∧ current_orders (AnyLower.run lower calls OrderPlugin_init) !! "ORD-1" = Some order
  ∧ AnyLower.additions_to lower "ORD-1" calls OrderPlugin_init = adds
  ∧ items order = added_items adds
  ∧ AnyLower.accumulated_total lower adds = Some (total order).
Proof.
  intros calls order adds.
  assert (Hall : Forall (quantity_in (λ quantity, 0 ≤ quantity)) calls)
    by (subst calls; solve_quantities).
  assert (Ho : current_orders (AnyLower.run lower calls OrderPlugin_init) !! "ORD-1"
               = Some order)
    by (vm_compute; reflexivity).
  assert (Hadds : AnyLower.additions_to lower "ORD-1" calls OrderPlugin_init = adds)
    by (vm_compute; reflexivity).
  split; [exact Hall|]. split; [exact Ho|]. split; [exact Hadds|].
  destruct (total_accumulates_additions lower calls "ORD-1" order Hall Ho)
    as (_ & Hitems & Htotal).
  rewrite Hadds in Hitems, Htotal.
  split; [exact Hitems | exact Htotal].
Defined.

(** The claim as written fails in both directions. Seven pepperoni added
    in one call leave the total [12.99 * 7], which is neither the float
    sum of the seven entries nor their exact sum; and a negative quantity
    lowers the total while the item list stays empty. *)
Lemma total_differs_from_unit_price_sum :
  (let self := run [CreateOrder "Alice"; AddItemToOrder "ORD-1" "pepperoni" 7]
                   OrderPlugin_init in
   ∃ order,
     current_orders self !! "ORD-1" = Some order
     ∧ items order = repeat "pepperoni" 7
     ∧ total order = 90.930000000000007%float
     ∧ unit_price_sum (items order) = Some 90.929999999999993%float
     ∧ unit_price_sum (items order) ≠ Some (total order)
     ∧ ∃ v s, float_value (total order) = Some v
              ∧ exact_unit_price_sum (items order) = Some s
              ∧ ¬ (v == s)%Q)
  ∧ (let self := run [CreateOrder "Alice"; AddItemToOrder "ORD-1" "soda" (-1)]
                     OrderPlugin_init in
     ∃ order,
       current_orders self !! "ORD-1" = Some order
       ∧ items order = []
       ∧ total order = (-1.99)%float
       ∧ unit_price_sum (items order) = Some 0%float
       ∧ unit_price_sum (items order) ≠ Some (total order)).
Proof.
  split.
  - eexists. split; [vm_compute; reflexivity|]. cbn [items total].
    split; [reflexivity|]. split; [reflexivity|].
    split; [vm_compute; reflexivity|]. split.
    + intros H. apply (f_equal (fmap (M := option) Prim2SF)) in H.
      vm_compute in H. discriminate.
    + do 2 eexists. split; [vm_compute; reflexivity|].
      split; [vm_compute; reflexivity|].
      intros H. apply Qeq_bool_iff in H. vm_compute in H. discriminate.
  - eexists. split; [vm_compute; reflexivity|]. cbn [items total].
    split; [reflexivity|]. split; [reflexivity|]. split; [reflexivity|].
    intros H. apply (f_equal (fmap (M := option) Prim2SF)) in H.
    vm_compute in H. discriminate.
Qed.

Lemma table_price_times_one (key : string) (price : float) :
  price_lookup !! key = Some price → (price * 1)%float = price.
Proof.
  rewrite price_lookup_elem. unfold price_table.
  rewrite !elem_of_cons, elem_of_nil.
  intros H. repeat (destruct H as [H|H]; [by inversion H|]). done.
Qed.

Lemma unit_price_sum_snoc (l : list string) (item : string) (acc price : float) :
  unit_price_sum l = Some acc →
  unit_price item = Some price →
  unit_price_sum (l ++ [item]) = Some (acc + price)%float.
Proof.
  intros Hl Hp. unfold unit_price_sum in *.
  rewrite foldl_app, Hl. cbn [foldl mbind option_bind]. by rewrite Hp.
Qed.

Lemma accumulates_units (order : Order) :
  accumulates (λ quantity, quantity = 1) order →
  unit_price_sum (items order) = Some (total order).
Proof.
  intros (adds & Hok & -> & Htotal). revert Hok Htotal. generalize (total order).
  induction adds as [|a adds IH] using rev_ind; intros t Hok Htotal.
  - by injection Htotal as <-.
  - apply Forall_app in Hok as [Hok Ha]. apply Forall_singleton in Ha as [Hq Hf].
    unfold accumulated_total in Htotal. rewrite foldl_app in Htotal.
    cbn [foldl] in Htotal.
    destruct (foldl _ (Some 0%float) adds) as [t0|] eqn:Ht0; [|discriminate].
    cbn [mbind option_bind] in Htotal.
    destruct (unit_price (added_name a)) as [p|] eqn:Hp; [|discriminate].
    cbn [mbind option_bind] in Htotal. injection Htotal as <-.
    rewrite Hq, float_of_int_1 in Hf. injection Hf as <-.
    rewrite (table_price_times_one _ _ Hp).
    unfold added_items. rewrite flat_map_app. cbn [flat_map].
    rewrite Hq, app_nil_r. change (repeat (added_name a) (Z.to_nat 1)) with [added_name a].
    apply unit_price_sum_snoc; [|exact Hp].
    by apply IH.
Qed.

(** When every addition is of a single unit (the default quantity), the
    total is the float sum of the unit prices of the entries, as the
    specification words it. *)
Theorem single_units_total_is_unit_price_sum (calls : list call)
    (order_id : string) (order : Order) :
  Forall (quantity_in (λ quantity, quantity = 1)) calls →
  current_orders (run calls OrderPlugin_init) !! order_id = Some order →
  unit_price_sum (items order) = Some (total order).
Proof.
  intros Hall Ho. apply accumulates_units.
  exact (run_accumulates _ calls OrderPlugin_init Hall (init_accumulates _) _ _ Ho).
Qed.

(** ** Totality *)

(** The claim as written fails at a quantity too large to convert to a
    float: for an existing order and a table item the call raises. *)
Lemma add_item_huge_quantity_raises :
  let self := state_of (create_order "Alice" OrderPlugin_init) in
  is_Some (current_orders self !! "ORD-1")
  ∧ is_Some (price_lookup !! lower "Pepperoni")
  ∧ exec (AddItemToOrder "ORD-1" "Pepperoni" (2 ^ 1024)) self
    = Raised (OverflowError "int too large to convert to float") self.
Proof.
  intros self. split; [|split].
  - eexists. vm_compute. reflexivity.
  - eexists. vm_compute. reflexivity.
  - vm_compute. reflexivity.
Qed.

(** C10, as the code has it. Every operation, on every state and for all
    arguments, either returns a string or is an [add_item_to_order] on an
    existing order and a table item whose quantity is too large to convert
    to a float, which raises [OverflowError] and leaves the state as it
    was. In particular every call whose quantity converts returns; and
    conversely every [add_item_to_order] on an existing order and a table
    item whose quantity does not convert raises. An unknown order id and
    an item name that is not in the price table are reported through the
    returned text only: the call returns like a successful one, with the
    state unchanged. All of it holds whatever [str.lower] does to the
    item names. *)
Theorem operations_return_unless_overflow (str_lower : string → string) (c : call)
    (self : OrderPlugin) :
  ((∃ msg self', AnyLower.exec str_lower c self = Returned msg self')
   ∨ (∃ order_id item_name quantity order item_price,
        c = AddItemToOrder order_id item_name quantity
        ∧ current_orders self !! order_id = Some order
        ∧ price_lookup !! str_lower item_name = Some item_price
        ∧ float_of_int quantity = None
        ∧ AnyLower.exec str_lower c self
          = Raised (OverflowError "int too large to convert to float") self))
  ∧ (quantity_in (λ quantity, is_Some (float_of_int quantity)) c →
     ∃ msg self', AnyLower.exec str_lower c self = Returned msg self')
  ∧ (∀ order_id item_name quantity,
       is_Some (current_orders self !! order_id) →
       is_Some (price_lookup !! str_lower item_name) →
       float_of_int quantity = None →
       AnyLower.exec str_lower (AddItemToOrder order_id item_name quantity) self
         = Raised (OverflowError "int too large to convert to float") self)
  ∧ (∀ order_id, current_orders self !! order_id = None →
       (∀ item_name quantity,
          AnyLower.add_item_to_order str_lower order_id item_name quantity self
            = Returned ("Order ID " +:+ order_id
                          +:+ " not found. Please create an order first.") self)
       ∧ get_order_status order_id self
         = Returned ("Order ID " +:+ order_id
                       +:+ " not found. Please check your order ID.") self
       ∧ complete_order order_id self
         = Returned ("Order ID " +:+ order_id
                       +:+ " not found. Please check your order ID.") self)
  ∧ (∀ order_id item_name quantity,
       is_Some (current_orders self !! order_id) →
       price_lookup !! str_lower item_name = None →
       AnyLower.add_item_to_order str_lower order_id item_name quantity self
         = Returned ("Item '" +:+ item_name
                       +:+ "' not found in our menu. Please check the menu for available items.")
                    self).
Proof.
  assert (Hcases :
    (∃ msg self', AnyLower.exec str_lower c self = Returned msg self')
    ∨ (∃ order_id item_name quantity order item_price,
         c = AddItemToOrder order_id item_name quantity
         ∧ current_orders self !! order_id = Some order
         ∧ price_lookup !! str_lower item_name = Some item_price
         ∧ float_of_int quantity = None
         ∧ AnyLower.exec str_lower c self
           = Raised (OverflowError "int too large to convert to float") self)).
  { destruct c as [name|id item q|id|id]; simpl.
    - left. by eexists _, _.
    - unfold AnyLower.add_item_to_order.
      destruct (current_orders self !! id) as [o|] eqn:Ho; [|left; by eexists _, _].
      destruct (price_lookup !! str_lower item) as [p|] eqn:Hp; [|left; by eexists _, _].
      destruct (float_of_int q) as [fq|] eqn:Hf; [left; by eexists _, _|].
      right. by exists id, item, q, o, p.
    - left. unfold get_order_status.
      destruct (current_orders self !! id); by eexists _, _.
    - left. unfold complete_order.
      destruct (current_orders self !! id); by eexists _, _. }
  split; [exact Hcases|]. split; [|split; [|split]].
  - intros Hq. destruct Hcases as [Hret|(id & item & q & o & p & -> & _ & _ & Hf & _)];
      [exact Hret|].
    destruct (Hq q eq_refl) as [fq Hfq]. congruence.
  - intros order_id item_name quantity [o Ho] [p Hp] Hf.
    cbn [AnyLower.exec]. unfold AnyLower.add_item_to_order. by rewrite Ho, Hp, Hf.
  - intros order_id Hnone.
    unfold AnyLower.add_item_to_order, get_order_status, complete_order.
    rewrite Hnone. done.
  - intros order_id item_name quantity [o Ho] Hp. unfold AnyLower.add_item_to_order.
    rewrite Ho, Hp. done.
Qed.

(** ** The float model at known values *)

Example float_of_int_largest :
  float_of_int (2 ^ 1024 - 2 ^ 970 - 1) = Some 1.7976931348623157e+308%float
  ∧ float_of_int (2 ^ 1024 - 2 ^ 970) = None
  ∧ float_of_int (2 ^ 53 + 1) = Some 9007199254740992%float
  ∧ float_of_int 0 = Some 0%float.
Proof. repeat split; vm_compute; reflexivity. Qed.

Example format_2f_values :
  map format_2f [0; 25.98; 0.125; 0.375; 2.675; -0.001; -1.99; infinity; nan]%float
    = ["0.00"; "25.98"; "0.12"; "0.38"; "2.67"; "-0.00"; "-1.99"; "inf"; "nan"].
Proof. vm_compute. reflexivity. Qed.

Example float_repr_prices :
  map (λ '(_, price), float_repr price) price_table
    = ["10.99"; "12.99"; "11.99"; "13.99"; "14.99"; "4.99"; "5.99"; "8.99";
       "1.99"; "1.49"; "5.99"].
Proof. vm_compute. reflexivity. Qed.

Example float_repr_values :
  map float_repr [0.1 + 0.2; 1e16; 1e15; 1e-5; 0.0001; 100; 5e-324; 1 / 3; -1.5e-10]%float
    = ["0.30000000000000004"; "1e+16"; "1000000000000000.0"; "1e-05"; "0.0001";
       "100.0"; "5e-324"; "0.3333333333333333"; "-1.5e-10"].
Proof. vm_compute. reflexivity. Qed.

(** * Further properties of the order store *)

Lemma extends_refl (order : Order) : extends order order.
Proof. by split. Qed.

Lemma extends_trans (a b c : Order) : extends a b → extends b c → extends a c.
Proof.
  intros [Hn1 Hp1] [Hn2 Hp2]. split; [congruence | by etrans].
Qed.

Lemma add_to_order_extends (order : Order) (item_name : string) (quantity : Z)
    (total_item_price : float) :
  extends order (add_to_order order item_name quantity total_item_price).
Proof. split; [done | by apply prefix_app_r]. Qed.

(** The three ways [add_item_to_order] can end, by its look-ups. *)
Lemma add_item_to_order_cases (order_id item_name : string) (quantity : Z)
    (self : OrderPlugin) :
  state_of (add_item_to_order order_id item_name quantity self) = self
  ∨ ∃ order item_price fquantity,
      current_orders self !! order_id = Some order
      ∧ price_lookup !! lower item_name = Some item_price
      ∧ float_of_int quantity = Some fquantity
      ∧ state_of (add_item_to_order order_id item_name quantity self)
        = {| current_orders :=
               <[order_id := add_to_order order item_name quantity
                               (item_price * fquantity)%float]> (current_orders self);
             order_counter := order_counter self |}.
Proof.
  unfold add_item_to_order.
  destruct (current_orders self !! order_id) as [o|] eqn:Ho; [|by left].
  destruct (price_lookup !! lower item_name) as [p|] eqn:Hp; [|by left].
  destruct (float_of_int quantity) as [fq|] eqn:Hf; [|by left].
  right. by exists o, p, fq.
Qed.

(** X1. Whatever its arguments and however it ends, [add_item_to_order]
    touches nothing but the order it names: the counter and every other
    entry are as before, an unknown id stays unknown, and a known order
    keeps its customer and its earlier entries in front. *)
Theorem add_item_touches_only_its_order (order_id item_name : string)
    (quantity : Z) (self : OrderPlugin) :
  let self' := state_of (add_item_to_order order_id item_name quantity self) in
  order_counter self' = order_counter self
  ∧ (∀ other, other ≠ order_id →
       current_orders self' !! other = current_orders self !! other)
  ∧ (current_orders self !! order_id = None →
       current_orders self' !! order_id = None)
  ∧ (∀ order, current_orders self !! order_id = Some order →
       ∃ order', current_orders self' !! order_id = Some order'
                 ∧ customer_name order' = customer_name order
                 ∧ items order `prefix_of` items order').
Proof.
  intros self'. subst self'.
  destruct (add_item_to_order_cases order_id item_name quantity self)
    as [->|(o & p & fq & Ho & Hp & Hf & ->)].
  - split; [done|]. split; [done|]. split; [done|].
    intros order Horder. exists order. split; [done|]. by split.
  - cbn [current_orders order_counter]. split; [done|]. split; [|split].
    + intros other Hne. by rewrite lookup_insert_ne.
    + intros Hnone. congruence.
    + intros order Horder. rewrite Ho in Horder. injection Horder as <-.
      eexists. rewrite lookup_insert_eq. split; [done|].
      apply add_to_order_extends.
Qed.

Lemma exec_extends (c : call) (self : OrderPlugin) (id : string) (order : Order) :
  ids_assigned self →
  current_orders self !! id = Some order →
  ∃ order', current_orders (state_of (exec c self)) !! id = Some order'
            ∧ extends order order'.
Proof.
  intros Hinv Ho. destruct c as [name|oid item q|oid|oid]; simpl.
  - exists order. split; [|apply extends_refl].
    rewrite lookup_insert_ne; [done|].
    intros Heq. pose proof (next_order_id_fresh self Hinv) as Hfresh.
    unfold next_order_id in Hfresh. rewrite Heq in Hfresh. congruence.
  - destruct (add_item_to_order_cases oid item q self)
      as [->|(o & p & fq & Ho' & Hp & Hf & ->)].
    + exists order. split; [done | apply extends_refl].
    + cbn [current_orders]. destruct (decide (oid = id)) as [->|Hne].
      * rewrite Ho in Ho'. injection Ho' as <-. eexists.
        rewrite lookup_insert_eq. split; [done | apply add_to_order_extends].
      * exists order. rewrite lookup_insert_ne by done.
        split; [done | apply extends_refl].
  - exists order. unfold get_order_status.
    destruct (current_orders self !! oid); (split; [done | apply extends_refl]).
  - exists order. unfold complete_order.
    destruct (current_orders self !! oid); (split; [done | apply extends_refl]).
Qed.

(** X2. Orders are never deleted, renamed or shortened. From a state
    whose ids all came from the counter (every state the plugin reaches),
    an order that is in the store is still there after any further calls,
    under the same id, with the same customer and with its earlier
    entries still at the front of its item list. *)
Theorem orders_persist (calls : list call) (self : OrderPlugin)
    (order_id : string) (order : Order) :
  ids_assigned self →
  current_orders self !! order_id = Some order →
  ∃ order', current_orders (run calls self) !! order_id = Some order'
            ∧ customer_name order' = customer_name order
            ∧ items order `prefix_of` items order'.
Proof.
  revert self order. induction calls as [|c calls IH]; intros self order Hinv Ho.
  - exists order. by repeat split.
  - destruct (exec_extends c self order_id order Hinv Ho) as (o1 & Ho1 & Hext1).
    destruct (IH _ o1 (exec_ids_assigned c self Hinv) Ho1) as (o2 & Ho2 & Hn2 & Hp2).
    exists o2. split; [exact Ho2|].
    destruct (extends_trans order o1 o2 Hext1 (conj Hn2 Hp2)) as [Hn Hp].
    by split.
Qed.

Lemma orders_persist_witness :
  let self := run [CreateOrder "Alice"; AddItemToOrder "ORD-1" "Soda" 2] OrderPlugin_init in
  let calls := [CreateOrder "Bob"; AddItemToOrder "ORD-1" "beer" 1;
                CompleteOrder "ORD-1"; AddItemToOrder "ORD-2" "water" (-3)] in
  ids_assigned self
  ∧ current_orders self !! "ORD-1"
    = Some {| customer_name := "Alice"; items := ["Soda"; "Soda"];
              total := (0 + 1.99 * 2)%float |}
  ∧ ∃ order', current_orders (run calls self) !! "ORD-1" = Some order'
              ∧ customer_name order' = "Alice"
              ∧ ["Soda"; "Soda"] `prefix_of` items order'.
Proof.
  intros self calls.
  assert (Hinv : ids_assigned self) by apply run_ids_assigned, init_ids_assigned.
  assert (Ho : current_orders self !! "ORD-1"
    = Some {| customer_name := "Alice"; items := ["Soda"; "Soda"];
              total := (0 + 1.99 * 2)%float |}) by (vm_compute; reflexivity).
  split; [exact Hinv|]. split; [exact Ho|].
  exact (orders_persist calls self "ORD-1" _ Hinv Ho).
Defined.

Lemma exec_store_exact (c : call) (self : OrderPlugin) :
  store_exact self → store_exact (state_of (exec c self)).
Proof.
  intros (Hpos & Hsize & Hdom).
  assert (Hfresh : current_orders self !! order_id_of (order_counter self + 1) = None).
  { apply eq_None_not_Some. intros Hsome. apply Hdom in Hsome as (k & Hk & Heq).
    apply order_id_of_inj in Heq. lia. }
  destruct c as [name|oid item q|oid|oid]; simpl.
  - split; [cbn; lia|]. split.
    + cbn [current_orders order_counter].
      rewrite map_size_insert_None by done. rewrite Hsize. lia.
    + intros id. cbn [current_orders order_counter].
      destruct (decide (order_id_of (order_counter self + 1) = id)) as [<-|Hne].
      * rewrite lookup_insert_eq. split; [|by eexists].
        intros _. exists (order_counter self + 1). split; [lia|done].
      * rewrite lookup_insert_ne by done. rewrite Hdom. split.
        -- intros (k & Hk & ->). exists k. split; [lia|done].
        -- intros (k & Hk & ->). exists k. split; [|done].
           destruct (decide (k = order_counter self + 1)) as [->|]; [done|lia].
  - destruct (add_item_to_order_cases oid item q self)
      as [->|(o & p & fq & Ho & Hp & Hf & ->)]; [done|].
    split; [done|]. split.
    + cbn [current_orders order_counter].
      rewrite map_size_insert_Some by (by eexists). done.
    + intros id. cbn [current_orders order_counter]. rewrite <- Hdom.
      destruct (decide (oid = id)) as [<-|Hne].
      * rewrite lookup_insert_eq, Ho. split; by eexists.
      * by rewrite lookup_insert_ne.
  - unfold get_order_status. by destruct (current_orders self !! oid).
  - unfold complete_order. by destruct (current_orders self !! oid).
Qed.

Lemma run_store_exact (calls : list call) (self : OrderPlugin) :
  store_exact self → store_exact (run calls self).
Proof.
  revert self. induction calls as [|c calls IH]; intros self Hinv; [done|].
  simpl. by apply IH, exec_store_exact.
Qed.

Lemma init_store_exact : store_exact OrderPlugin_init.
Proof.
  split; [done|]. split; [done|]. intros id.
  unfold OrderPlugin_init. cbn [current_orders order_counter].
  rewrite lookup_empty. split.
  - by intros [? ?].
  - intros (k & Hk & _). lia.
Qed.

Lemma run_order_counter (calls : list call) (self : OrderPlugin) :
  order_counter (run calls self) = order_counter self + count_creates calls.
Proof.
  revert self. induction calls as [|c calls IH]; intros self; simpl; [lia|].
  rewrite IH, exec_order_counter. lia.
Qed.

(** X3. After any sequence of calls from the initial state, the counter
    is the number of [create_order] calls made, the store has exactly that
    many orders, and its keys are exactly "ORD-1" ... "ORD-n": nothing
    but [create_order] adds an entry and nothing removes one. *)
Theorem store_holds_created_orders (calls : list call) :
  let self := run calls OrderPlugin_init in
  order_counter self = count_creates calls
  ∧ size (current_orders self) = Z.to_nat (count_creates calls)
  ∧ ∀ id, is_Some (current_orders self !! id)
          ↔ ∃ k, 1 ≤ k ≤ count_creates calls ∧ id = "ORD-" +:+ pretty k.
Proof.
  intros self. subst self.
  destruct (run_store_exact calls _ init_store_exact) as (_ & Hsize & Hdom).
  rewrite run_order_counter in Hsize, Hdom. rewrite run_order_counter.
  unfold OrderPlugin_init in *. cbn [order_counter] in *.
  rewrite Z.add_0_l in *. done.
Qed.

(** ** The status summary *)

Lemma summary_incr_total (item : string) (s : list (string * Z)) :
  summary_total (summary_incr item s) = summary_total s + 1.
Proof.
  induction s as [|[k n] s IH]; simpl; [done|].
  destruct (decide (k = item)); simpl; [lia|]. rewrite IH. lia.
Qed.

Lemma summary_total_length (items : list string) :
  summary_total (items_summary items) = Z.of_nat (length items).
Proof.
  induction items as [|x l IH] using rev_ind; [done|].
  rewrite items_summary_snoc, summary_incr_total, IH, length_app. simpl. lia.
Qed.

(** X4. The summary [get_order_status] builds accounts for every entry
    once: its names are pairwise distinct, each is a name that occurs in
    the item list, each count is at least one, and the counts add up to
    the length of the item list. *)
Theorem summary_accounts_for_every_entry (items : list string) :
  NoDup (map fst (items_summary items))
  ∧ (∀ name n, (name, n) ∈ items_summary items → name ∈ items ∧ 1 ≤ n)
  ∧ summary_total (items_summary items) = Z.of_nat (length items).
Proof.
  split; [|split].
  - rewrite items_summary_first_seen, map_map. simpl. rewrite map_id.
    apply first_seen_NoDup.
  - intros name n. rewrite items_summary_first_seen.
    change (map ?f ?l) with (f <$> l). rewrite list_elem_of_fmap.
    intros (k & [= -> ->] & Hk). apply (proj1 (first_seen_elem _ _)) in Hk.
    split; [done|].
    unfold occurrences.
    assert (0 < length (filter (λ y, y = k) items))%nat; [|lia].
    apply list_elem_of_lookup in Hk as [i Hi].
    assert (Hin : k ∈ filter (λ y, y = k) items).
    { apply list_elem_of_filter. split; [done|]. by eapply list_elem_of_lookup_2. }
    destruct (filter (λ y, y = k) items); [by apply elem_of_nil in Hin | simpl; lia].
  - apply summary_total_length.
Qed.

(** ** How additions compose *)

(** An addition reads the store only at the id it names. *)
Lemma add_item_to_order_local (order_id item_name : string) (quantity : Z)
    (self other : OrderPlugin) :
  current_orders other !! order_id = current_orders self !! order_id →
  reply (add_item_to_order order_id item_name quantity other)
    = reply (add_item_to_order order_id item_name quantity self).
Proof.
  intros Heq. unfold add_item_to_order. rewrite Heq.
  destruct (current_orders self !! order_id); [|done].
  destruct (price_lookup !! lower item_name); [|done].
  by destruct (float_of_int quantity).
Qed.

Lemma add_item_other_lookup (order_id item_name : string) (quantity : Z)
    (self : OrderPlugin) (other : string) :
  other ≠ order_id →
  current_orders (state_of (add_item_to_order order_id item_name quantity self)) !! other
    = current_orders self !! other.
Proof.
  intros Hne.
  destruct (add_item_to_order_cases order_id item_name quantity self)
    as [->|(o & p & fq & _ & _ & _ & ->)]; [done|].
  cbn [current_orders]. by rewrite lookup_insert_ne.
Qed.

Lemma state_of_add_item_to_order (order_id item_name : string) (quantity : Z)
    (self : OrderPlugin) :
  state_of (add_item_to_order order_id item_name quantity self)
    = match current_orders self !! order_id ≫= updated_order item_name quantity with
      | Some order' =>
          {| current_orders := <[order_id := order']> (current_orders self);
             order_counter := order_counter self |}
      | None => self
      end.
Proof.
  unfold add_item_to_order, updated_order.
  destruct (current_orders self !! order_id) as [o|]; [|done]. cbn [mbind option_bind].
  destruct (price_lookup !! lower item_name) as [p|]; [|done]. cbn [mbind option_bind].
  by destruct (float_of_int quantity) as [f|].
Qed.

(** X5. Additions to two different orders commute: done in either order
    they leave the same store, and each call answers (returns or raises)
    exactly what it would have answered alone. *)
Theorem adds_to_different_orders_commute (self : OrderPlugin)
    (id1 name1 : string) (quantity1 : Z) (id2 name2 : string) (quantity2 : Z) :
  id1 ≠ id2 →
  let first := add_item_to_order id1 name1 quantity1 in
  let second := add_item_to_order id2 name2 quantity2 in
  state_of (second (state_of (first self))) = state_of (first (state_of (second self)))
  ∧ reply (second (state_of (first self))) = reply (second self)
  ∧ reply (first (state_of (second self))) = reply (first self).
Proof.
  intros Hne first second. subst first second. split; [|split].
  - rewrite (state_of_add_item_to_order id2), (state_of_add_item_to_order id1 _ _ (state_of _)).
    rewrite !add_item_other_lookup by done.
    rewrite !state_of_add_item_to_order.
    destruct (current_orders self !! id1 ≫= updated_order name1 quantity1) as [o1|];
      destruct (current_orders self !! id2 ≫= updated_order name2 quantity2) as [o2|];
      cbn [current_orders order_counter]; [|done..].
    f_equal. by apply insert_insert_ne.
  - apply add_item_to_order_local, add_item_other_lookup. done.
  - apply add_item_to_order_local, add_item_other_lookup. done.
Qed.

Lemma adds_to_different_orders_commute_witness :
  let self := run [CreateOrder "Alice"; CreateOrder "Bob"] OrderPlugin_init in
  "ORD-1" ≠ "ORD-2"
  ∧ state_of (add_item_to_order "ORD-2" "beer" 2
                (state_of (add_item_to_order "ORD-1" "Soda" 3 self)))
    = state_of (add_item_to_order "ORD-1" "Soda" 3
                  (state_of (add_item_to_order "ORD-2" "beer" 2 self))).
Proof.
  intros self.
  assert (Hne : "ORD-1" ≠ "ORD-2") by discriminate.
  split; [exact Hne|].
  exact (proj1 (adds_to_different_orders_commute self "ORD-1" "Soda" 3 "ORD-2" "beer" 2 Hne)).
Defined.

(** ** Additions and the status summary *)

Lemma summary_incr_elem (x : string) (s : list (string * Z)) :
  x ∈ map fst s → NoDup (map fst s) →
  summary_incr x s = summary_bump x 1 s.
Proof.
  induction s as [|[k c] s IH]; simpl; intros Hin Hnd.
  - by apply elem_of_nil in Hin.
  - apply NoDup_cons in Hnd as [Hk Hnd]. destruct (decide (k = x)) as [->|Hne].
    + f_equal. unfold summary_bump. symmetry.
      etrans; [|apply map_id]. apply map_ext_in. intros [k c'] Hkc.
      rewrite decide_False; [done|]. intros ->. apply Hk.
      apply list_elem_of_In in Hkc.
      apply (list_elem_of_fmap_2 fst) in Hkc. exact Hkc.
    + f_equal. apply IH; [|done].
      apply elem_of_cons in Hin as [?|?]; [congruence | done].
Qed.

Lemma summary_incr_not_elem (x : string) (s : list (string * Z)) :
  x ∉ map fst s → summary_incr x s = s ++ [(x, 1)].
Proof.
  induction s as [|[k c] s IH]; simpl; intros Hnin; [done|].
  apply not_elem_of_cons in Hnin as [Hne Hnin].
  rewrite decide_False by congruence. by rewrite IH.
Qed.

Lemma summary_bump_keys (x : string) (n : Z) (s : list (string * Z)) :
  map fst (summary_bump x n s) = map fst s.
Proof.
  unfold summary_bump. rewrite map_map. apply map_ext. by intros [k c].
Qed.

Lemma summary_bump_bump (x : string) (n m : Z) (s : list (string * Z)) :
  summary_bump x m (summary_bump x n s) = summary_bump x (n + m) s.
Proof.
  unfold summary_bump. rewrite map_map. apply map_ext. intros [k c].
  destruct (decide (k = x)); [f_equal; lia | done].
Qed.

Lemma items_summary_keys (l : list string) :
  map fst (items_summary l) = first_seen l.
Proof. rewrite items_summary_first_seen, map_map. apply map_id. Qed.

Lemma items_summary_app_repeat (l : list string) (x : string) (n : nat) :
  items_summary (l ++ repeat x (S n))
    = if decide (x ∈ l) then summary_bump x (Z.of_nat (S n)) (items_summary l)
      else items_summary l ++ [(x, Z.of_nat (S n))].
Proof.
  induction n as [|n IH].
  - change (repeat x 1) with [x]. rewrite items_summary_snoc.
    destruct (decide (x ∈ l)) as [Hin|Hnin].
    + apply summary_incr_elem.
      * rewrite items_summary_keys. by apply first_seen_elem.
      * rewrite items_summary_keys. apply first_seen_NoDup.
    + apply summary_incr_not_elem. rewrite items_summary_keys.
      by rewrite first_seen_elem.
  - change (repeat x (S (S n))) with (x :: repeat x (S n)).
    rewrite repeat_cons, app_assoc, items_summary_snoc, IH.
    destruct (decide (x ∈ l)) as [Hin|Hnin].
    + rewrite summary_incr_elem.
      * rewrite summary_bump_bump. f_equal. lia.
      * rewrite summary_bump_keys, items_summary_keys. by apply first_seen_elem.
      * rewrite summary_bump_keys, items_summary_keys. apply first_seen_NoDup.
    + assert (Hk : x ∉ map fst (items_summary l)).
      { rewrite items_summary_keys. by rewrite first_seen_elem. }
      clear IH. induction (items_summary l) as [|[k c] s IHs]; simpl.
      * rewrite decide_True by done. do 2 f_equal. lia.
      * simpl in Hk. apply not_elem_of_cons in Hk as [Hne Hk].
        rewrite decide_False by congruence. f_equal. by apply IHs.
Qed.

(** X6. What an addition of a positive quantity does to the status
    summary: if the name (exactly as given) is already among the order's
    entries, its group keeps its place and its count rises by the
    quantity; otherwise a new group with that count is appended after all
    the others. No other group changes. *)
Theorem summary_after_addition (order : Order) (item_name : string)
    (quantity : Z) (total_item_price : float) :
  0 < quantity →
  items_summary (items (add_to_order order item_name quantity total_item_price))
    = if decide (item_name ∈ items order)
      then map (λ '(name, n), (name, if decide (name = item_name) then n + quantity else n))
               (items_summary (items order))
      else items_summary (items order) ++ [(item_name, quantity)].
Proof.
  intros Hq. unfold add_to_order. cbn [items].
  destruct (Z.to_nat quantity) as [|n] eqn:Hn; [lia|].
  rewrite items_summary_app_repeat. replace (Z.of_nat (S n)) with quantity by lia.
  done.
Qed.

Lemma summary_after_addition_witness :
  0 < 2
  ∧ items_summary
      (items (add_to_order {| customer_name := "Alice"; items := ["Soda"; "beer"; "Soda"];
                              total := 9.97%float |} "beer" 2 11.98%float))
    = [("Soda", 2); ("beer", 3)].
Proof.
  assert (H : 0 < 2) by lia. split; [exact H|].
  rewrite (summary_after_addition _ "beer" 2 _ H). reflexivity.
Defined.

(** X7. Adding one unit (the default quantity) of a table item to an
    existing order appends exactly one entry and raises the total by
    exactly the unit price: the product [item_price * 1] is the price
    itself. *)
Theorem add_one_unit_adds_unit_price (self : OrderPlugin)
    (order_id item_name : string) (order : Order) (item_price : float) :
  current_orders self !! order_id = Some order →
  price_lookup !! lower item_name = Some item_price →
  ∃ msg self',
    add_item_to_order order_id item_name 1 self = Returned msg self'
    ∧ current_orders self' !! order_id
      = Some {| customer_name := customer_name order;
                items := items order ++ [item_name];
                total := (total order + item_price)%float |}.
Proof.
  intros Ho Hp.
  rewrite (add_item_to_order_ok _ _ _ _ _ _ _ Ho Hp float_of_int_1). cbv zeta.
  do 2 eexists. split; [reflexivity|]. cbn [current_orders].
  rewrite lookup_insert_eq. unfold add_to_order.
  by rewrite (table_price_times_one _ _ Hp).
Qed.

Lemma add_one_unit_adds_unit_price_witness :
  let self := state_of (create_order "Alice" OrderPlugin_init) in
  current_orders self !! "ORD-1"
    = Some {| customer_name := "Alice"; items := []; total := 0%float |}
  ∧ price_lookup !! lower "Hawaiian" = Some 13.99%float
  ∧ ∃ msg self',
      add_item_to_order "ORD-1" "Hawaiian" 1 self = Returned msg self'
      ∧ current_orders self' !! "ORD-1"
        = Some {| customer_name := "Alice"; items := ["Hawaiian"];
                  total := (0 + 13.99)%float |}.
Proof.
  intros self.
  assert (Ho : current_orders self !! "ORD-1"
    = Some {| customer_name := "Alice"; items := []; total := 0%float |})
    by (vm_compute; reflexivity).
  assert (Hp : price_lookup !! lower "Hawaiian" = Some 13.99%float)
    by (vm_compute; reflexivity).
  split; [exact Ho|]. split; [exact Hp|].
  exact (add_one_unit_adds_unit_price self "ORD-1" "Hawaiian" _ _ Ho Hp).
Defined.

(** ** A quantity of zero *)

Lemma float_add_zero (t : float) : t ≠ neg_zero → (t + 0)%float = t.
Proof.
  intros Hnz. rewrite <- (SF2Prim_Prim2SF (t + 0)), add_spec.
  change (Prim2SF 0) with (S754_zero false).
  rewrite <- (SF2Prim_Prim2SF t) at 2. rewrite <- (SF2Prim_Prim2SF t) in Hnz.
  destruct (Prim2SF t) as [[]| | |]; try reflexivity.
  by destruct Hnz.
Qed.

Lemma table_price_times_zero (key : string) (price : float) :
  price_lookup !! key = Some price → (price * 0)%float = 0%float.
Proof.
  rewrite price_lookup_elem. unfold price_table.
  rewrite !elem_of_cons, elem_of_nil.
  intros H. repeat (destruct H as [H|H]; [by inversion H|]). done.
Qed.

Lemma float_of_int_0 : float_of_int 0 = Some 0%float.
Proof. vm_compute. reflexivity. Qed.

(** X8. A quantity of zero is accepted and changes nothing: for an
    existing order whose total is not negative zero and a table item,
    [add_item_to_order] returns the confirmation "Added 0x ..." quoting
    the unchanged total, and the plugin state afterwards is the state
    before. *)
Theorem add_zero_quantity_changes_nothing (self : OrderPlugin)
    (order_id item_name : string) (order : Order) (item_price : float) :
  current_orders self !! order_id = Some order →
  price_lookup !! lower item_name = Some item_price →
  total order ≠ neg_zero →
  add_item_to_order order_id item_name 0 self
    = Returned ("Added 0x " +:+ item_name +:+ " ($" +:+ float_repr item_price
                  +:+ " each) to order " +:+ order_id
                  +:+ ". Current order total: $" +:+ format_2f (total order))
               self.
Proof.
  intros Ho Hp Hnz.
  rewrite (add_item_to_order_ok _ _ _ _ _ _ _ Ho Hp float_of_int_0). cbv zeta.
  assert (Hsame : add_to_order order item_name 0 (item_price * 0)%float = order).
  { unfold add_to_order. rewrite (table_price_times_zero _ _ Hp).
    rewrite float_add_zero by done. cbn [Z.to_nat repeat]. rewrite app_nil_r.
    by destruct order. }
  rewrite Hsame, (insert_id _ _ _ Ho). by destruct self.
Qed.

Lemma add_zero_quantity_changes_nothing_witness :
  let self := run [CreateOrder "Alice"; AddItemToOrder "ORD-1" "Soda" 2] OrderPlugin_init in
  let order := {| customer_name := "Alice"; items := ["Soda"; "Soda"];
                  total := 3.98%float |} in
  current_orders self !! "ORD-1" = Some order
  ∧ price_lookup !! lower "Beer" = Some 5.99%float
  ∧ total order ≠ neg_zero
  ∧ add_item_to_order "ORD-1" "Beer" 0 self
    = Returned "Added 0x Beer ($5.99 each) to order ORD-1. Current order total: $3.98" self.
Proof.
  intros self order.
  assert (Ho : current_orders self !! "ORD-1" = Some order) by (vm_compute; reflexivity).
  assert (Hp : price_lookup !! lower "Beer" = Some 5.99%float) by (vm_compute; reflexivity).
  assert (Hnz : total order ≠ neg_zero).
  { intros H. apply (f_equal Prim2SF) in H. vm_compute in H. discriminate. }
  split; [exact Ho|]. split; [exact Hp|]. split; [exact Hnz|].
  exact (add_zero_quantity_changes_nothing self "ORD-1" "Beer" order _ Ho Hp Hnz).
Defined.

(** * The menu plugin *)

Lemma lower_ascii_idemp (c : ascii) : lower_ascii (lower_ascii c) = lower_ascii c.
Proof. by destruct c as [[] [] [] [] [] [] [] []]. Qed.

Lemma upper_lower_ascii (c : ascii) : upper_ascii (lower_ascii c) = upper_ascii c.
Proof. by destruct c as [[] [] [] [] [] [] [] []]. Qed.

Lemma is_cased_lower_ascii (c : ascii) : is_cased (lower_ascii c) = is_cased c.
Proof. by destruct c as [[] [] [] [] [] [] [] []]. Qed.

Lemma title_from_lower (previous_is_cased : bool) (s : string) :
  title_from previous_is_cased (lower s) = title_from previous_is_cased s.
Proof.
  revert previous_is_cased. induction s as [|c s IH]; intros prev; [done|].
  cbn [lower title_from].
  rewrite is_cased_lower_ascii, IH, lower_ascii_idemp, upper_lower_ascii. done.
Qed.

(** The title-cased form of a name depends only on its letters, not on
    their case. *)
Lemma title_lower (s : string) : title (lower s) = title s.
Proof. apply title_from_lower. Qed.

(** X9. [get_item_info] does not care how a known item is spelled: two
    names that differ only in letter case, one of which is in
    [menu_items], get the same answer, character for character (the
    heading is title-cased, so it does not echo the caller's casing). *)
Theorem get_item_info_ignores_case (a b : string) :
  lower a = lower b →
  is_Some (MenuPlugin.menu_items !! lower a) →
  MenuPlugin.get_item_info a = MenuPlugin.get_item_info b.
Proof.
  intros Hab [item Hitem]. unfold MenuPlugin.get_item_info. cbv zeta.
  rewrite <- Hab, Hitem. unfold MenuPlugin.item_info_msg.
  by rewrite <- (title_lower a), Hab, title_lower.
Qed.

Lemma get_item_info_ignores_case_witness :
  lower "CHICKEN wings" = lower "chicken Wings"
  ∧ is_Some (MenuPlugin.menu_items !! lower "CHICKEN wings")
  ∧ MenuPlugin.get_item_info "CHICKEN wings" = MenuPlugin.get_item_info "chicken Wings".
Proof.
  assert (H1 : lower "CHICKEN wings" = lower "chicken Wings") by reflexivity.
  assert (H2 : is_Some (MenuPlugin.menu_items !! lower "CHICKEN wings"))
    by (eexists; vm_compute; reflexivity).
  split; [exact H1|]. split; [exact H2|].
  exact (get_item_info_ignores_case _ _ H1 H2).
Defined.

Lemma startswithb_sound (p s : string) :
  startswithb p s = true → ∃ post, s = p +:+ post.
Proof.
  revert s. induction p as [|a p IH]; intros s H.
  - by exists s.
  - destruct s as [|b s]; [discriminate|]. simpl in H.
    destruct (Ascii.eqb a b) eqn:Hab; [|discriminate].
    apply Ascii.eqb_eq in Hab as ->. destruct (IH s H) as [post ->].
    by exists post.
Qed.

Lemma containsb_sound (sub s : string) : containsb sub s = true → contains sub s.
Proof.
  induction s as [|c s IH]; intros H.
  - simpl in H. destruct (startswithb sub "") eqn:Hs; [|discriminate].
    destruct (startswithb_sound _ _ Hs) as [post ->]. by exists "", post.
  - simpl in H. destruct (startswithb sub (String c s)) eqn:Hs.
    + destruct (startswithb_sound _ _ Hs) as [post ->]. by exists "", post.
    + destruct (IH H) as (pre & post & ->). by exists (String c pre), post.
Qed.

Lemma menu_items_keys_NoDup : NoDup (MenuPlugin.menu_items_table.*1).
Proof. apply (bool_decide_unpack _). vm_compute. exact I. Qed.

Lemma menu_items_elem (key : string) (item : MenuPlugin.menu_item) :
  MenuPlugin.menu_items !! key = Some item ↔ (key, item) ∈ MenuPlugin.menu_items_table.
Proof.
  unfold MenuPlugin.menu_items. symmetry.
  apply elem_of_list_to_map, menu_items_keys_NoDup.
Qed.

(** Every entry of [menu_items] is on the menu under its title-cased key
    and in the price table under its key, at the same price. *)
Lemma menu_items_consistent (key : string) (item : MenuPlugin.menu_item) :
  MenuPlugin.menu_items !! key = Some item →
  containsb ("- " +:+ title key +:+ " ($" +:+ float_repr (MenuPlugin.price item) +:+ ")")
            MenuPlugin.get_menu = true
  ∧ price_lookup !! key = Some (MenuPlugin.price item).
Proof.
  rewrite menu_items_elem. unfold MenuPlugin.menu_items_table.
  rewrite !elem_of_cons, elem_of_nil.
  intros H.
  repeat (destruct H as [H|H];
          [injection H as -> ->; split; vm_compute; reflexivity|]).
  done.
Qed.

(** X10. An item [get_item_info] knows has one price everywhere: the
    price its answer shows is the price on the [get_menu] line that
    carries the same title-cased name, and it is the unit price
    [add_item_to_order] charges for that name on any existing order. *)
Theorem known_item_same_price_everywhere (item_name : string)
    (item : MenuPlugin.menu_item) :
  MenuPlugin.menu_items !! lower item_name = Some item →
  contains (title item_name +:+ ":") (MenuPlugin.get_item_info item_name)
  ∧ contains ("Price: $" +:+ float_repr (MenuPlugin.price item))
             (MenuPlugin.get_item_info item_name)
  ∧ contains ("- " +:+ title item_name +:+ " ($"
                +:+ float_repr (MenuPlugin.price item) +:+ ")")
             MenuPlugin.get_menu
  ∧ ∀ self order_id order quantity fquantity,
      current_orders self !! order_id = Some order →
      float_of_int quantity = Some fquantity →
      ∃ self',
        add_item_to_order order_id item_name quantity self
          = Returned
              (added_msg order_id item_name quantity (MenuPlugin.price item)
                 (total order + MenuPlugin.price item * fquantity)%float)
              self'.
Proof.
  intros Hitem. destruct (menu_items_consistent _ _ Hitem) as [Hmenu Hprice].
  unfold MenuPlugin.get_item_info. cbv zeta. rewrite Hitem.
  unfold MenuPlugin.item_info_msg. split; [|split; [|split]].
  - exists (nl +:+ MenuPlugin.indent12). eexists. by rewrite !append_assoc.
  - exists (nl +:+ MenuPlugin.indent12 +:+ title item_name +:+ ":" +:+ nl
               +:+ MenuPlugin.indent12 +:+ "Description: "
               +:+ MenuPlugin.description item +:+ nl +:+ MenuPlugin.indent12).
    eexists. by rewrite !append_assoc.
  - rewrite <- title_lower. by apply containsb_sound.
  - intros self order_id order quantity fquantity Ho Hf.
    rewrite (add_item_to_order_ok _ _ _ _ _ _ _ Ho Hprice Hf). cbv zeta.
    by eexists.
Qed.

Lemma known_item_same_price_everywhere_witness :
  let item := {| MenuPlugin.description :=
                   "Classic tomato sauce and mozzarella cheese. A traditional Italian pizza.";
                 MenuPlugin.price := 10.99%float;
                 MenuPlugin.ingredients :=
                   "Tomato sauce, mozzarella cheese, fresh basil, olive oil, salt";
                 MenuPlugin.vegetarian := true;
                 MenuPlugin.vegan := false;
                 MenuPlugin.gluten_free_option := true |} in
  MenuPlugin.menu_items !! lower "MARGHERITA" = Some item
  ∧ contains "- Margherita ($10.99)" MenuPlugin.get_menu.
Proof.
  intros item.
  assert (H : MenuPlugin.menu_items !! lower "MARGHERITA" = Some item)
    by (vm_compute; reflexivity).
  split; [exact H|].
  exact (proj1 (proj2 (proj2 (known_item_same_price_everywhere "MARGHERITA" item H)))).
Defined.

(** X11. Two lines of the menu cannot be ordered under the name the menu
    prints. [get_menu] lists "Bottled Water" and "Craft Beer", but the
    price table knows them as "water" and "beer" only, so on any existing
    order [add_item_to_order] answers item-not-found for the menu's names,
    whatever the quantity, and leaves the state as it was. *)
Theorem menu_names_not_orderable (self : OrderPlugin) (order_id : string)
    (quantity : Z) :
  is_Some (current_orders self !! order_id) →
  contains "- Bottled Water ($1.49)" MenuPlugin.get_menu
  ∧ contains "- Craft Beer ($5.99)" MenuPlugin.get_menu
  ∧ add_item_to_order order_id "Bottled Water" quantity self
    = Returned
        "Item 'Bottled Water' not found in our menu. Please check the menu for available items."
        self
  ∧ add_item_to_order order_id "Craft Beer" quantity self
    = Returned
        "Item 'Craft Beer' not found in our menu. Please check the menu for available items."
        self
  ∧ price_lookup !! "water" = Some 1.49%float
  ∧ price_lookup !! "beer" = Some 5.99%float.
Proof.
  intros [order Ho].
  split; [apply containsb_sound; vm_compute; reflexivity|].
  split; [apply containsb_sound; vm_compute; reflexivity|].
  unfold add_item_to_order. rewrite Ho.
  assert (Hw : price_lookup !! lower "Bottled Water" = None) by (vm_compute; reflexivity).
  assert (Hb : price_lookup !! lower "Craft Beer" = None) by (vm_compute; reflexivity).
  rewrite Hw, Hb. repeat split; vm_compute; reflexivity.
Qed.

Lemma menu_names_not_orderable_witness :
  let self := state_of (create_order "Alice" OrderPlugin_init) in
  is_Some (current_orders self !! "ORD-1")
  ∧ add_item_to_order "ORD-1" "Bottled Water" 1 self
    = Returned
        "Item 'Bottled Water' not found in our menu. Please check the menu for available items."
        self.
Proof.
  intros self.
  assert (H : is_Some (current_orders self !! "ORD-1")) by (eexists; vm_compute; reflexivity).
  split; [exact H|].
  exact (proj1 (proj2 (proj2 (menu_names_not_orderable self "ORD-1" 1 H)))).
Defined.

(** * The HTTP server *)

Section ServerProperties.

Context {thread : Type}.
Variable get_response : string → option thread → agent_outcome (thread := thread).
Variable str_HTTPException : Z → string → string.

(** X13. [delete_thread] never answers 404. For a stored thread it
    removes that entry alone and returns success; for an unknown id the
    404 it raises is caught by its own [except Exception] and leaves as a
    500 whose detail is the text of the 404, with the store unchanged.
    Deleting the same id a second time is therefore always a 500. *)
Theorem delete_thread_never_404 (threadId : string)
    (active_threads : gmap string thread) :
  let result := delete_thread str_HTTPException threadId active_threads in
  (is_Some (active_threads !! threadId) →
     result.1 = Ok true
     ∧ result.2 !! threadId = None
     ∧ (∀ other, other ≠ threadId → result.2 !! other = active_threads !! other)
     ∧ S (size result.2) = size active_threads)
  ∧ (active_threads !! threadId = None →
       result = (HTTPException 500 (str_HTTPException 404 "Thread not found"),
                 active_threads))
  ∧ (∀ detail, result.1 ≠ HTTPException 404 detail)
  ∧ (delete_thread str_HTTPException threadId result.2).1
    = HTTPException 500 (str_HTTPException 404 "Thread not found").
Proof.
  intros result. subst result. unfold delete_thread.
  destruct (active_threads !! threadId) as [t|] eqn:Ht; cbn [fst snd].
  - split; [|split; [done|split; [done|]]].
    + intros _. split; [done|]. split; [apply lookup_delete_eq|]. split.
      * intros other Hne. by apply lookup_delete_ne.
      * rewrite <- (insert_delete_id active_threads threadId t Ht) at 2.
        rewrite map_size_insert_None by apply lookup_delete_eq. done.
    + by rewrite lookup_delete_eq.
  - split; [by intros [? ?]|]. split; [done|]. split; [done|]. by rewrite Ht.
Qed.

End ServerProperties.

Lemma thread_name_inj (a b : Z) : "thread-" +:+ pretty a = "thread-" +:+ pretty b → a = b.
Proof. intros H. apply (String.app_inj "thread-") in H. by apply pretty_Z_inj in H. Qed.

Section ServerThreads.

Context {thread : Type}.
Variable get_response : string → option thread → agent_outcome (thread := thread).
Variable str_HTTPException : Z → string → string.

(** X14. Thread ids are made from the number of stored threads, so a
    deletion makes the next one collide. If the newest numbered thread
    "thread-n" (n the number of stored threads) is live and any other
    thread is deleted, the next request that brings no thread id is given
    "thread-n" again: the agent is handed the live thread of that other
    conversation, and its answer overwrites it. *)
Theorem deletion_makes_next_id_collide (request : MessageRequest)
    (active_threads : gmap string thread) (deleted : string) (t : thread) :
  truthy (threadId request) = false →
  let newest := "thread-" +:+ pretty (Z.of_nat (size active_threads)) in
  active_threads !! newest = Some t →
  is_Some (active_threads !! deleted) →
  deleted ≠ newest →
  let threads' := (delete_thread str_HTTPException deleted active_threads).2 in
  thread_id_for request threads' = newest
  ∧ threads' !! newest = Some t
  ∧ process_message get_response str_HTTPException request threads'
    = match get_response (message request) (Some t) with
      | Response content response_thread =>
          (Ok {| response := content; response_threadId := newest |},
           <[newest := response_thread]> threads')
      | NoResponse =>
          (HTTPException 500 (str_HTTPException 500 "Failed to get response from agent"),
           threads')
      | AgentError text => (HTTPException 500 text, threads')
      end.
Proof.
  intros Hnone newest Hnewest [d Hd] Hne threads'.
  assert (Hthreads : threads' = delete deleted active_threads).
  { subst threads'. unfold delete_thread. by rewrite Hd. }
  assert (Hsize : Z.of_nat (size threads') + 1 = Z.of_nat (size active_threads)).
  { rewrite Hthreads.
    rewrite <- (insert_delete_id active_threads deleted d Hd) at 2.
    rewrite map_size_insert_None by apply lookup_delete_eq. lia. }
  assert (Hid : thread_id_for request threads' = newest).
  { unfold thread_id_for. rewrite Hnone, Hsize. done. }
  assert (Hlive : threads' !! newest = Some t).
  { rewrite Hthreads, lookup_delete_ne by done. done. }
  split; [exact Hid|]. split; [exact Hlive|].
  unfold process_message. cbv zeta. rewrite Hid, Hlive. done.
Qed.

(** X15. Without deletions and without ids invented by clients the
    generated ids are fresh. If the stored threads are exactly "thread-1"
    ... "thread-n", a request that brings no thread id (or an empty one)
    is given an id that is not in the store, so the agent starts from no
    thread; and after any request that brings no id or a stored one, the
    stored threads are again exactly numbered, whatever the agent did. *)
Theorem numbered_threads_get_fresh_ids (request : MessageRequest)
    (active_threads : gmap string thread) :
  numbered active_threads →
  truthy (threadId request) = false
  ∨ is_Some (active_threads !! default "" (threadId request)) →
  let result := process_message get_response str_HTTPException request active_threads in
  numbered result.2
  ∧ (truthy (threadId request) = false →
       active_threads !! thread_id_for request active_threads = None).
Proof.
  intros Hnum Hreq result.
  assert (Hfresh : truthy (threadId request) = false →
            active_threads !! thread_id_for request active_threads = None).
  { intros Hnone. unfold thread_id_for. rewrite Hnone.
    apply eq_None_not_Some. intros Hsome. apply Hnum in Hsome as (k & Hk & Heq).
    apply thread_name_inj in Heq. lia. }
  split; [|exact Hfresh].
  subst result. unfold process_message. cbv zeta.
  set (thread_id := thread_id_for request active_threads).
  destruct (get_response (message request) (active_threads !! thread_id))
    as [content t'| |text]; cbn [snd]; [|done..].
  destruct (active_threads !! thread_id) as [t|] eqn:Hlook.
  - intros id. rewrite map_size_insert_Some by (by eexists).
    rewrite <- (Hnum id). destruct (decide (thread_id = id)) as [<-|Hne].
    + rewrite lookup_insert_eq, Hlook. split; by eexists.
    + by rewrite lookup_insert_ne.
  - assert (Hgen : thread_id
               = "thread-" +:+ pretty (Z.of_nat (size active_threads) + 1)).
    { destruct Hreq as [Hnone|Hlive].
      - subst thread_id. unfold thread_id_for. by rewrite Hnone.
      - subst thread_id. unfold thread_id_for in *.
        destruct (truthy (threadId request)); [|done].
        rewrite Hlook in Hlive. by destruct Hlive. }
    intros id. rewrite map_size_insert_None by done.
    destruct (decide (thread_id = id)) as [<-|Hne].
    + rewrite lookup_insert_eq. split; [|by eexists].
      intros _. exists (Z.of_nat (size active_threads) + 1). split; [lia|done].
    + rewrite lookup_insert_ne by done. rewrite (Hnum id). split.
      * intros (k & Hk & ->). exists k. split; [lia|done].
      * intros (k & Hk & ->). exists k. split; [|done].
        destruct (decide (k = Z.of_nat (size active_threads) + 1)) as [->|]; [|lia].
        by rewrite Hgen in Hne.
Qed.

End ServerThreads.

(** A concrete agent for the examples: it answers every message with the
    message itself and keeps, as its thread, the messages seen so far. *)
Lemma deletion_makes_next_id_collide_witness :
  let agent := λ (msg : string) (t : option (list string)),
                 Response msg (default [] t ++ [msg]) in
  let str := λ (status : Z) (detail : string), pretty status +:+ ": " +:+ detail in
  let threads : gmap string (list string) :=
    {["thread-1" := ["hello"]; "thread-2" := ["my order is ORD-7"]]} in
  let request := {| message := "hi"; threadId := None |} in
  truthy (threadId request) = false
  ∧ threads !! ("thread-" +:+ pretty (Z.of_nat (size threads)))
    = Some ["my order is ORD-7"]
  ∧ is_Some (threads !! "thread-1")
  ∧ "thread-1" ≠ "thread-" +:+ pretty (Z.of_nat (size threads))
  ∧ thread_id_for request (delete_thread str "thread-1" threads).2 = "thread-2".
Proof.
  intros agent str threads request.
  assert (H1 : truthy (threadId request) = false) by reflexivity.
  assert (H2 : threads !! ("thread-" +:+ pretty (Z.of_nat (size threads)))
               = Some ["my order is ORD-7"]) by (vm_compute; reflexivity).
  assert (H3 : is_Some (threads !! "thread-1")) by (eexists; vm_compute; reflexivity).
  assert (H4 : "thread-1" ≠ "thread-" +:+ pretty (Z.of_nat (size threads)))
    by (vm_compute; discriminate).
  split; [exact H1|]. split; [exact H2|]. split; [exact H3|]. split; [exact H4|].
  destruct (deletion_makes_next_id_collide agent str request threads "thread-1" _
              H1 H2 H3 H4) as (Hid & _).
  rewrite Hid. vm_compute. reflexivity.
Defined.

Lemma numbered_threads_get_fresh_ids_witness :
  let agent := λ (msg : string) (t : option (list string)),
                 Response msg (default [] t ++ [msg]) in
  let str := λ (status : Z) (detail : string), pretty status +:+ ": " +:+ detail in
  let request := {| message := "hi"; threadId := None |} in
  numbered (∅ : gmap string (list string))
  ∧ truthy (threadId request) = false
  ∧ numbered (process_message agent str request ∅).2.
Proof.
  intros agent str request.
  assert (H0 : numbered (∅ : gmap string (list string))).
  { intros id. rewrite lookup_empty, map_size_empty. split.
    - by intros [? ?].
    - intros (k & Hk & _). lia. }
  assert (H1 : truthy (threadId request) = false) by reflexivity.
  split; [exact H0|]. split; [exact H1|].
  exact (proj1 (numbered_threads_get_fresh_ids agent str request ∅ H0 (or_introl H1))).
Defined.

(** ** Streaming a response in chunks of three words *)

Section StreamingProperties.

Context {char : Type}.
Variable isspace : char → bool.
Variable space : char.

(** [" ".isspace()] *)
Hypothesis isspace_space : isspace space = true.

Lemma is_word_snoc (word : list char) (c : char) :
  word = [] ∨ is_word isspace word → isspace c = false → is_word isspace (word ++ [c]).
Proof.
  intros Hword Hc. split.
  - by destruct word.
  - apply Forall_app. split; [|by apply Forall_singleton].
    destruct Hword as [->|[_ Hw]]; [constructor | exact Hw].
Qed.

Lemma split_from_words (word s : list char) :
  word = [] ∨ is_word isspace word →
  Forall (is_word isspace) (PyText.split_from isspace word s).
Proof.
  revert word. induction s as [|c s IH]; intros word Hword; simpl.
  - destruct word as [|x word]; [constructor|].
    destruct Hword as [?|?]; [done|]. constructor; [done | constructor].
  - destruct (isspace c) eqn:Hc.
    + destruct word as [|x word].
      * apply IH. by left.
      * destruct Hword as [?|?]; [done|]. constructor; [done|]. apply IH. by left.
    + apply IH. right. by apply is_word_snoc.
Qed.

Lemma spaced_app (a b : list (list char)) :
  spaced space (a ++ b) = spaced space a ++ spaced space b.
Proof.
  induction a as [|w a IH]; [done|]. simpl. by rewrite IH, <- !app_assoc.
Qed.

Lemma join_spaced (l : list (list char)) :
  l ≠ [] → PyText.join [space] l ++ [space] = spaced space l.
Proof.
  induction l as [|w l IH]; [done|]. intros _.
  destruct l as [|w' l]; [done|].
  change (PyText.join [space] (w :: w' :: l))
    with (w ++ [space] ++ PyText.join [space] (w' :: l)).
  rewrite <- !app_assoc, IH by done. done.
Qed.

Lemma rstrip_word_app (w rest : list char) :
  Forall (λ c, isspace c = false) w →
  PyText.rstrip isspace (w ++ rest) = w ++ PyText.rstrip isspace rest.
Proof.
  induction 1 as [|c w Hc _ IH]; [done|].
  cbn [app PyText.rstrip]. rewrite IH, Hc.
  by destruct (w ++ PyText.rstrip isspace rest).
Qed.

Lemma join_words_nonempty (w : list char) (l : list (list char)) :
  w ≠ [] → PyText.join [space] (w :: l) ≠ [].
Proof. intros Hw. destruct w; [done|]. by destruct l. Qed.

Lemma rstrip_spaced (l : list (list char)) :
  Forall (is_word isspace) l → l ≠ [] →
  PyText.rstrip isspace (spaced space l) = PyText.join [space] l.
Proof.
  induction l as [|w l IH]; [done|]. intros Hall _.
  apply Forall_cons in Hall as [[Hne Hw] Hall]. cbn [spaced foldr].
  rewrite rstrip_word_app by done.
  destruct l as [|w' l].
  - cbn [foldr app PyText.rstrip PyText.join]. by rewrite isspace_space, app_nil_r.
  - fold (spaced space (w' :: l)).
    cbn [app PyText.rstrip]. rewrite IH by done.
    pose proof (Forall_inv Hall) as [Hne' _].
    pose proof (join_words_nonempty w' l Hne') as Hj.
    change (PyText.join [space] (w :: w' :: l))
      with (w ++ [space] ++ PyText.join [space] (w' :: l)).
    by destruct (PyText.join [space] (w' :: l)).
Qed.

Lemma lstrip_spaced (l : list (list char)) :
  Forall (is_word isspace) l →
  PyText.lstrip isspace (spaced space l) = spaced space l.
Proof.
  destruct l as [|w l]; [done|]. intros Hall.
  apply Forall_cons in Hall as [[Hne Hw] _]. cbn [spaced foldr].
  destruct w as [|c w]; [done|]. cbn [app PyText.lstrip].
  by rewrite (Forall_inv Hw).
Qed.

Lemma strip_spaced (l : list (list char)) :
  Forall (is_word isspace) l → l ≠ [] →
  PyText.strip isspace (spaced space l) = PyText.join [space] l.
Proof.
  intros Hall Hne. unfold PyText.strip. rewrite lstrip_spaced by done.
  by apply rstrip_spaced.
Qed.

Lemma take_plus {A : Type} (n k : nat) (l : list A) :
  take (n + k) l = take n l ++ take k (drop n l).
Proof.
  revert l. induction n as [|n IH]; intros l; [done|].
  destruct l as [|x l]; simpl; [by rewrite take_nil | by rewrite IH].
Qed.

Lemma stream_chunks_prefixes (words : list (list char)) :
  Forall (is_word isspace) words →
  ∀ m j, (3 * (j + m) < length words + 3)%nat →
    stream_chunks isspace space words (map (λ i, 3 * i)%nat (seq j m))
                  (spaced space (take (3 * j) words))
      = map (λ i, PyText.join [space] (take (3 * (i + 1)) words)) (seq j m).
Proof.
  intros Hwords m. induction m as [|m IH]; intros j Hj; [done|].
  cbn [seq map stream_chunks].
  assert (Hchunk : take 3 (drop (3 * j) words) ≠ []).
  { intros Hnil. apply (f_equal length) in Hnil.
    rewrite length_take, length_drop in Hnil.
    change (length (@nil (list char))) with 0%nat in Hnil. lia. }
  assert (Hfull : spaced space (take (3 * j) words)
                    ++ PyText.join [space] (take 3 (drop (3 * j) words)) ++ [space]
                  = spaced space (take (3 * (j + 1)) words)).
  { rewrite join_spaced by done. rewrite <- spaced_app.
    replace (3 * (j + 1))%nat with (3 * j + 3)%nat by lia. by rewrite take_plus. }
  rewrite Hfull. f_equal.
  - apply strip_spaced.
    + by apply Forall_take.
    + intros Hnil. apply (f_equal length) in Hnil.
      rewrite length_take in Hnil.
      change (length (@nil (list char))) with 0%nat in Hnil. lia.
  - replace (j + 1)%nat with (S j) by lia. apply IH. lia.
Qed.

(** X16. What [stream_message] sends for a response text, over any
    alphabet whose space character counts as whitespace. With [words] the
    whitespace-separated words of the text, the "content" events carry,
    in order, the first 3, 6, 9, ... words joined by single spaces: one
    event per started group of three. Every word is non-empty and free of
    whitespace, the last event is all the words joined by single spaces,
    and a text without words produces no content event at all. *)
Theorem stream_contents_are_word_prefixes (content : list char) :
  let words := PyText.split isspace content in
  Forall (λ w, w ≠ [] ∧ Forall (λ c, isspace c = false) w) words
  ∧ stream_contents isspace space content
    = map (λ j, PyText.join [space] (take (3 * (j + 1)) words))
          (seq 0 ((length words + 2) / 3))
  ∧ (words ≠ [] →
     last (stream_contents isspace space content) = Some (PyText.join [space] words))
  ∧ (words = [] → stream_contents isspace space content = []).
Proof.
  intros words.
  assert (Hwords : Forall (is_word isspace) words) by (apply split_from_words; by left).
  assert (Hdiv : (3 * ((length words + 2) / 3) < length words + 3)%nat).
  { pose proof (Nat.div_mod_eq (length words + 2) 3) as Hdm.
    pose proof (Nat.mod_upper_bound (length words + 2) 3). lia. }
  assert (Hspec : stream_contents isspace space content
    = map (λ j, PyText.join [space] (take (3 * (j + 1)) words))
          (seq 0 ((length words + 2) / 3))).
  { unfold stream_contents, range_by_3. fold words.
    apply (stream_chunks_prefixes words Hwords _ 0%nat).
    rewrite Nat.add_0_l. exact Hdiv. }
  split; [exact Hwords|]. split; [exact Hspec|]. split.
  - intros Hne. rewrite Hspec.
    destruct ((length words + 2) / 3)%nat as [|m] eqn:Hm.
    + destruct words; [done|]. simpl in Hm.
      pose proof (Nat.div_mod_eq (S (length words + 2)) 3) as Hdm.
      pose proof (Nat.mod_upper_bound (S (length words + 2)) 3).
      simpl in Hdm. rewrite Hm in Hdm. lia.
    + rewrite seq_S, map_app. cbn [map]. rewrite last_snoc. f_equal. f_equal.
      apply take_ge.
      pose proof (Nat.div_mod_eq (length words + 2) 3) as Hdm.
      pose proof (Nat.mod_upper_bound (length words + 2) 3).
      rewrite Hm in Hdm. simpl. lia.
  - intros Hnil. rewrite Hspec, Hnil. reflexivity.
Qed.

End StreamingProperties.

(** The ASCII characters with their [isspace], and a response of eight
    words. *)
Lemma stream_contents_are_word_prefixes_witness :
  let content := list_ascii_of_string
                   ("  Your order  is" +:+ nl +:+ "on its way to you now ") in
  is_space " " = true
  ∧ map string_of_list_ascii (stream_contents is_space " "%char content)
    = ["Your order is"; "Your order is on its way";
       "Your order is on its way to you now"]
  ∧ last (stream_contents is_space " "%char content)
    = Some (PyText.join [" "%char] (PyText.split is_space content)).
Proof.
  intros content.
  assert (Hspace : is_space " " = true) by reflexivity.
  split; [exact Hspace|]. split; [vm_compute; reflexivity|].
  apply (stream_contents_are_word_prefixes is_space " "%char Hspace content).
  vm_compute. discriminate.
Defined.

(** * Placing an order through the pizza API *)

Lemma split_on_from_length (sep : ascii) (piece s : string) :
  length (split_on_from sep piece s) = S (count_char sep s).
Proof.
  revert piece. induction s as [|c s IH]; intros piece; simpl; [done|].
  destruct (Ascii.eqb c sep); simpl; by rewrite IH.
Qed.

Lemma split_on_length (sep : ascii) (s : string) :
  length (split_on sep s) = S (count_char sep s).
Proof. apply split_on_from_length. Qed.

Section PlaceOrderProperties.

Variable int : string → option Z.
Variable int_error : string → string.



Lemma parse_quantities_all (pieces : list string) (ns : list Z) :
  Forall2 (λ piece n, int (strip piece) = Some n) pieces ns →
  parse_quantities int int_error pieces = inr ns.
Proof.
  induction 1 as [|p n pieces ns Hp _ IH]; simpl; [done|]. by rewrite Hp, IH.
Qed.

Lemma build_items_shape (pizza_id_list : list string) (quantity_list : list Z)
    (extra_toppings_list : option (list (list string))) (i : nat) :
  (i + length pizza_id_list ≤ length quantity_list)%nat →
  ∃ items,
    build_items i pizza_id_list quantity_list extra_toppings_list = Some items
    ∧ map pizzaId items = pizza_id_list
    ∧ map quantity items = take (length pizza_id_list) (drop i quantity_list)
    ∧ Forall (λ item, extraToppingIds item ≠ Some []
                      ∧ (extra_toppings_list = None → extraToppingIds item = None)) items.
Proof.
  revert i. induction pizza_id_list as [|pizza_id rest IH]; intros i Hlen.
  - exists []. by repeat split.
  - simpl in Hlen. cbn [build_items].
    destruct (lookup_lt_is_Some_2 quantity_list i) as [n Hn]; [lia|].
    rewrite Hn. cbn [mbind option_bind].
    destruct (IH (S i)) as (items & -> & Hids & Hqs & Hextra); [lia|].
    cbn [mbind option_bind]. eexists. split; [reflexivity|].
    cbn [map pizzaId quantity length]. split; [by rewrite Hids|]. split.
    + rewrite Hqs. rewrite (drop_S _ _ _ Hn). done.
    + constructor; [|done]. cbn [extraToppingIds].
      destruct extra_toppings_list as [l|]; [|by split].
      split; [|done]. by destruct (l !! i) as [[|t ts]|].
Qed.


(** X19. [place_order] posts a request whenever its arguments line up:
    if every comma-separated quantity is an integer for [int], the ids and
    the quantities have the same number of commas and no extra toppings
    are given, the request is built and posted; zero and negative
    quantities included. *)
Theorem place_order_posts_when_lists_line_up (user_id pizza_ids quantities : string)
    (extra_toppings : option string) :
  Forall (λ piece, is_Some (int (strip piece))) (split_on "," quantities) →
  count_char "," pizza_ids = count_char "," quantities →
  truthy extra_toppings = false →
  ∃ items,
    place_order_request int int_error user_id pizza_ids quantities extra_toppings
      = Posted user_id items.
Proof.
  intros Hall Hcount Hnone.
  assert (Hns : ∃ ns, Forall2 (λ piece n, int (strip piece) = Some n)
                        (split_on "," quantities) ns).
  { clear Hcount. induction (split_on "," quantities) as [|p l IH].
    - exists []. constructor.
    - apply Forall_cons in Hall as [[n Hn] Hall]. destruct (IH Hall) as [ns Hns].
      exists (n :: ns). by constructor. }
  destruct Hns as [ns Hns]. pose proof (Forall2_length _ _ _ Hns) as Hlen.
  unfold place_order_request. cbv zeta.
  rewrite (parse_quantities_all _ _ Hns), Hnone.
  rewrite split_on_length in Hlen.
  rewrite decide_False by (rewrite length_map, split_on_length; lia).
  destruct (build_items_shape (map strip (split_on "," pizza_ids)) ns None 0)
    as (items & -> & _); [rewrite length_map, split_on_length; simpl; lia|].
  by exists items.
Qed.

End PlaceOrderProperties.


Lemma place_order_posts_when_lists_line_up_witness :
  let int := λ s : string, if decide (s = "1") then Some 1
                           else if decide (s = "2") then Some 2 else None in
  let int_error := λ s : string, "invalid literal for int() with base 10: " +:+ s in
  Forall (λ piece, is_Some (int (strip piece))) (split_on "," "2, 1")
  ∧ count_char "," "p1,p2" = count_char "," "2, 1"
  ∧ truthy None = false
  ∧ ∃ items, place_order_request int int_error "user-1" "p1,p2" "2, 1" None
             = Posted "user-1" items.
Proof.
  intros int int_error.
  assert (H1 : Forall (λ piece, is_Some (int (strip piece))) (split_on "," "2, 1")).
  { repeat constructor; eexists; vm_compute; reflexivity. }
  assert (H2 : count_char "," "p1,p2" = count_char "," "2, 1") by reflexivity.
  assert (H3 : truthy None = false) by reflexivity.
  split; [exact H1|]. split; [exact H2|]. split; [exact H3|].
  exact (place_order_posts_when_lists_line_up int int_error "user-1" _ _ _ H1 H2 H3).
Defined.

(** ** What [place_order] posts, for any [str.strip] *)

Lemma place_order_request_strip (int : string → option Z) (int_error : string → string) :
  place_order_request_with strip int int_error = place_order_request int int_error.
Proof. reflexivity. Qed.

Section PlaceOrderAnyStripProperties.

Variable str_strip : string → string.
Variable int : string → option Z.
Variable int_error : string → string.

Lemma parse_quantities_with_inr (pieces : list string) (ns : list Z) :
  parse_quantities_with str_strip int int_error pieces = inr ns →
  Forall2 (λ piece n, int (str_strip piece) = Some n) pieces ns.
Proof.
  revert ns. induction pieces as [|p pieces IH]; intros ns; simpl.
  - intros [= <-]. constructor.
  - destruct (int (str_strip p)) as [n|] eqn:Hn; [|done].
    destruct (parse_quantities_with str_strip int int_error pieces) as [e|ns']; [done|].
    intros [= <-]. constructor; [done | by apply IH].
Qed.

Lemma parse_quantities_with_inl (pieces : list string) (e : string) :
  parse_quantities_with str_strip int int_error pieces = inl e →
  ∃ piece, piece ∈ pieces ∧ int (str_strip piece) = None
           ∧ e = int_error (str_strip piece).
Proof.
  induction pieces as [|p pieces IH]; simpl; [done|].
  destruct (int (str_strip p)) as [n|] eqn:Hn.
  - destruct (parse_quantities_with str_strip int int_error pieces) as [e'|ns']; [|done].
    intros [= <-]. destruct (IH eq_refl) as (piece & Hin & Hnone & He).
    exists piece. split; [by apply list_elem_of_further | done].
  - intros [= <-]. exists p. split; [apply list_elem_of_here | done].
Qed.

(** X18. What [place_order] posts, whatever [str.strip] counts as
    whitespace. Whenever a request is posted it carries the plugin's
    user id and exactly one item per comma-separated pizza id, in order:
    the stripped id and the integer its quantity parsed to, unvalidated.
    No item carries an empty list of extra toppings, and without
    [extra_toppings] no item carries any. Wherever the loop over the ids
    is reached (the quantities parsed and the counts agree) every
    [quantity_list[i]] is in range, so no [IndexError] arises: the call
    posts, or returns for one of three reasons, a quantity that is no
    integer, or one of the two count mismatches. *)
Theorem place_order_posts_one_item_per_id (user_id pizza_ids quantities : string)
    (extra_toppings : option string) :
  let result := place_order_request_with str_strip int int_error
                  user_id pizza_ids quantities extra_toppings in
  (∀ userId items,
     result = Posted userId items →
     userId = user_id
     ∧ length items = S (count_char "," pizza_ids)
     ∧ count_char "," pizza_ids = count_char "," quantities
     ∧ map pizzaId items = map str_strip (split_on "," pizza_ids)
     ∧ Forall2 (λ piece item, int (str_strip piece) = Some (quantity item))
               (split_on "," quantities) items
     ∧ Forall (λ item, extraToppingIds item ≠ Some []) items
     ∧ (truthy extra_toppings = false →
          Forall (λ item, extraToppingIds item = None) items))
  ∧ (∀ quantity_list extra_toppings_list,
       parse_quantities_with str_strip int int_error (split_on "," quantities)
         = inr quantity_list →
       length (map str_strip (split_on "," pizza_ids)) = length quantity_list →
       is_Some (build_items 0 (map str_strip (split_on "," pizza_ids)) quantity_list
                            extra_toppings_list))
  ∧ ((∃ items, result = Posted user_id items)
     ∨ (∃ piece, piece ∈ split_on "," quantities
                 ∧ int (str_strip piece) = None
                 ∧ result = ReturnedEarly
                              ("Error placing order: " +:+ int_error (str_strip piece)))
     ∨ result
       = ReturnedEarly "Error: The number of pizza IDs must match the number of quantities."
     ∨ result
       = ReturnedEarly
           "Error: The number of extra topping sets must match the number of pizzas.").
Proof.
  intros result.
  assert (Hrange : ∀ quantity_list extra_toppings_list,
    parse_quantities_with str_strip int int_error (split_on "," quantities)
      = inr quantity_list →
    length (map str_strip (split_on "," pizza_ids)) = length quantity_list →
    is_Some (build_items 0 (map str_strip (split_on "," pizza_ids)) quantity_list
                         extra_toppings_list)).
  { intros ns extras _ Hlen.
    destruct (build_items_shape (map str_strip (split_on "," pizza_ids)) ns extras 0)
      as (items & Hbuild & _); [simpl; lia|].
    rewrite Hbuild. by eexists. }
  split; [|split; [exact Hrange|]]; subst result;
    unfold place_order_request_with; cbv zeta;
    destruct (parse_quantities_with str_strip int int_error (split_on "," quantities))
      as [e|ns] eqn:Hparse.
  - done.
  - intros userId items.
    apply parse_quantities_with_inr in Hparse.
    pose proof (Forall2_length _ _ _ Hparse) as Hlen.
    destruct (decide (length (map str_strip (split_on "," pizza_ids)) ≠ length ns))
      as [|Heq%dec_stable]; [done|].
    set (extras := if truthy extra_toppings
                   then Some (parse_extra_toppings_with str_strip
                                (default "" extra_toppings))
                   else None).
    destruct (build_items_shape (map str_strip (split_on "," pizza_ids)) ns extras 0)
      as (items' & Hbuild & Hids & Hqs & Hextra); [simpl; lia|].
    rewrite Hbuild.
    assert (Hposted : Posted user_id items' = Posted userId items →
      userId = user_id
      ∧ length items = S (count_char "," pizza_ids)
      ∧ count_char "," pizza_ids = count_char "," quantities
      ∧ map pizzaId items = map str_strip (split_on "," pizza_ids)
      ∧ Forall2 (λ piece item, int (str_strip piece) = Some (quantity item))
                (split_on "," quantities) items
      ∧ Forall (λ item, extraToppingIds item ≠ Some []) items
      ∧ (truthy extra_toppings = false →
           Forall (λ item, extraToppingIds item = None) items)).
    { intros [= <- <-]. split; [done|].
      rewrite Heq, drop_0, <- Heq in Hqs.
      rewrite length_map, split_on_length in Heq.
      rewrite split_on_length in Hlen.
      split; [by rewrite <- (length_map pizzaId), Hids, length_map, split_on_length|].
      split; [lia|]. split; [done|]. split; [|split].
      - rewrite take_ge in Hqs by (rewrite length_map, split_on_length; lia).
        rewrite <- Hqs in Hparse. clear -Hparse.
        change (map quantity items') with (quantity <$> items') in Hparse.
        by apply Forall2_fmap_r in Hparse.
      - eapply Forall_impl; [exact Hextra|]. by intros item [? _].
      - intros Hnone. eapply Forall_impl; [exact Hextra|].
        intros item [_ Hitem]. apply Hitem. subst extras. by rewrite Hnone. }
    destruct extras as [l|]; [|exact Hposted].
    destruct (decide (length (map str_strip (split_on "," pizza_ids)) ≠ length l));
      [done|].
    exact Hposted.
  - right. left.
    destruct (parse_quantities_with_inl _ _ Hparse) as (piece & Hin & Hnone & ->).
    by exists piece.
  - destruct (decide (length (map str_strip (split_on "," pizza_ids)) ≠ length ns))
      as [|Heq%dec_stable]; [by right; right; left|].
    set (extras := if truthy extra_toppings
                   then Some (parse_extra_toppings_with str_strip
                                (default "" extra_toppings))
                   else None).
    destruct (Hrange ns extras eq_refl Heq) as [items ->].
    destruct extras as [l|]; [|left; by exists items].
    destruct (decide (length (map str_strip (split_on "," pizza_ids)) ≠ length l));
      [by right; right; right | left; by exists items].
Qed.

End PlaceOrderAnyStripProperties.

Lemma place_order_posts_one_item_per_id_witness :
  let int := λ s : string, if decide (s = "1") then Some 1
                           else if decide (s = "2") then Some 2 else None in
  let int_error := λ s : string, "invalid literal for int() with base 10: " +:+ s in
  let items := [ {| pizzaId := "p1"; quantity := 2; extraToppingIds := Some ["t1"; "t2"] |};
                 {| pizzaId := "p2"; quantity := 1; extraToppingIds := None |} ] in
  place_order_request_with strip int int_error "user-1" " p1 ,p2" "2, 1" (Some "t1, t2; ")
    = Posted "user-1" items
  ∧ length items = S (count_char "," " p1 ,p2").
Proof.
  intros int int_error items.
  assert (H : place_order_request_with strip int int_error
                "user-1" " p1 ,p2" "2, 1" (Some "t1, t2; ")
              = Posted "user-1" items) by (vm_compute; reflexivity).
  split; [exact H|].
  exact (proj1 (proj2 (proj1 (place_order_posts_one_item_per_id strip int int_error
                                _ _ _ _) _ _ H))).
Defined.
